(** * WhatsApp bridge server (server.js): session state, event fan-out and
    the REST gateway, embedded from the source.

    Both editions of [server.js] (the standalone bridge and the Home
    Assistant add-on) are covered: they share every handler and differ
    only in configuration loading and in a few response texts, which
    are selected here by an [Edition]. *)

From Stdlib Require Import String Ascii NArith ZArith Bool Lia.
From stdpp Require Import list.

Local Open Scope N_scope.
Local Set Warnings "-register-all".

(** ** JavaScript strings

    A JavaScript string is a sequence of UTF-16 code units. *)

Definition jsstring := list N.

(** A source-text literal as code units. *)
Definition js (s : string) : jsstring :=
  map N_of_ascii (list_ascii_of_string s).

Fixpoint str_eqb (s t : jsstring) : bool :=
  match s, t with
  | [], [] => true
  | a :: s', b :: t' => (a =? b) && str_eqb s' t'
  | _, _ => false
  end.

(** [s.startsWith(t)] *)
Fixpoint startsWith (s t : jsstring) : bool :=
  match t, s with
  | [], _ => true
  | b :: t', a :: s' => (a =? b) && startsWith s' t'
  | _ :: _, [] => false
  end.

(** [s.includes(t)]: [t] occurs somewhere in [s]. *)
Fixpoint includes (s t : jsstring) : bool :=
  startsWith s t ||
  match s with
  | [] => false
  | _ :: s' => includes s' t
  end.

(** [s.endsWith(t)]: the last [t.length] code units of [s] are [t]. *)
Definition endsWith (s t : jsstring) : bool :=
  if (length t <=? length s)%nat
  then str_eqb (drop (length s - length t)%nat s) t
  else false.

(** The regular-expression class [\d] (and [\D], its complement). *)
Definition is_digit (c : N) : bool := (48 <=? c) && (c <=? 57).

(** [s.replace(/\D/g, "")] *)
Definition strip_non_digits (s : jsstring) : jsstring := List.filter is_digit s.

(** The class [\s], which is also what [String.prototype.trim] removes:
    WhiteSpace and LineTerminator code units. *)
Definition is_space (c : N) : bool :=
  ((9 <=? c) && (c <=? 13)) || (c =? 32) || (c =? 160) || (c =? 5760)
  || ((8192 <=? c) && (c <=? 8202)) || (c =? 8232) || (c =? 8233)
  || (c =? 8239) || (c =? 8287) || (c =? 12288) || (c =? 65279).

Fixpoint dropWhile (p : N -> bool) (s : jsstring) : jsstring :=
  match s with
  | [] => []
  | c :: s' => if p c then dropWhile p s' else s
  end.

Definition trimStart (s : jsstring) : jsstring := dropWhile is_space s.
Definition trimEnd (s : jsstring) : jsstring := rev (dropWhile is_space (rev s)).
(** [s.trim()] *)
Definition trim (s : jsstring) : jsstring := trimEnd (trimStart s).

(** Canonicalisation of a code unit under the [i] flag (no [u] flag):
    only the ASCII letters fold onto ASCII letters. *)
Definition canonicalize (c : N) : N :=
  if (97 <=? c) && (c <=? 122) then c - 32 else c.

Fixpoint matches_ci (s pat : jsstring) : bool :=
  match pat, s with
  | [], _ => true
  | p :: pat', c :: s' => (canonicalize c =? canonicalize p) && matches_ci s' pat'
  | _ :: _, [] => false
  end.

(** [header.replace(/^Bearer\s+/i, "")]: when the string starts with the
    word in any letter case followed by at least one [\s], the word and the
    whole run of [\s] after it (the quantifier is greedy) are removed;
    otherwise the string is returned as it is. *)
Definition replace_bearer (header : jsstring) : jsstring :=
  let rest := drop 6 header in
  if matches_ci header (js "Bearer") &&
     match rest with c :: _ => is_space c | [] => false end
  then dropWhile is_space rest
  else header.

(** ** JavaScript values of the JSON fragment *)

Inductive value : Type :=
| JUndefined
| JNull
| JBool (b : bool)
| JNum (n : Z)
| JStr (s : jsstring)
| JArr (items : list value)
| JObj (fields : list (jsstring * value)).

(** ToBoolean *)
Definition truthy (v : value) : bool :=
  match v with
  | JUndefined | JNull => false
  | JBool b => b
  | JNum n => negb (n =? 0)%Z
  | JStr s => match s with [] => false | _ => true end
  | JArr _ | JObj _ => true
  end.

(** [a || b] *)
Definition js_or (a b : value) : value := if truthy a then a else b.

(** Own-property read [o.k] on a parsed JSON value; a later binding of a
    key wins, as in [JSON.parse]. Non-objects have none of the keys read
    by the bridge. *)
Fixpoint lookup_field (k : jsstring) (fs : list (jsstring * value)) : value :=
  match fs with
  | [] => JUndefined
  | (k', v) :: fs' =>
      match lookup_field k fs' with
      | JUndefined => if str_eqb k' k then v else JUndefined
      | later => later
      end
  end.

Definition prop (o : value) (k : string) : value :=
  match o with
  | JObj fs => lookup_field (js k) fs
  | _ => JUndefined
  end.

(** [x === y] where [x] is a string. *)
Definition strict_eq_str (x : jsstring) (y : value) : bool :=
  match y with
  | JStr s => str_eqb x s
  | _ => false
  end.

(** ** Configuration *)

Inductive Edition := Standalone | Addon.

(** [cfg.api_token] (add-on: the parsed options file; standalone:
    [process.env.API_TOKEN]); [JUndefined] when it is not set. *)
Record Config := { edition : Edition; api_token : value }.

(** [const API_TOKEN = cfg.api_token || "change_me_to_a_random_secret"] *)
Definition API_TOKEN (cfg : Config) : value :=
  js_or (api_token cfg) (JStr (js "change_me_to_a_random_secret")).

(** ** Session state *)

Inductive ConnectionStatus :=
| DISCONNECTED | INITIALIZING | QR_READY | AUTHENTICATED | READY | AUTH_FAILURE.

(** The string held by [clientStatus]. *)
Definition status_name (s : ConnectionStatus) : jsstring :=
  match s with
  | DISCONNECTED => js "DISCONNECTED"
  | INITIALIZING => js "INITIALIZING"
  | QR_READY => js "QR_READY"
  | AUTHENTICATED => js "AUTHENTICATED"
  | READY => js "READY"
  | AUTH_FAILURE => js "AUTH_FAILURE"
  end.

Definition is_READY (s : ConnectionStatus) : bool :=
  match s with READY => true | _ => false end.
Definition is_AUTHENTICATED (s : ConnectionStatus) : bool :=
  match s with AUTHENTICATED => true | _ => false end.

(** ** Event frames

    Every call of [broadcast] passes an object literal [{ event, data }];
    [data] is [JUndefined] where the literal has no [data]. *)
Record Payload := { event : jsstring; data : value }.

(** The text written to a socket. [JSON.stringify] is not interpreted: a
    frame is the serialisation of the payload it carries. *)
Inductive Frame := JSON_stringify (p : Payload).

Definition frame_payload (f : Frame) : Payload :=
  match f with JSON_stringify p => p end.

(** ** Subscriber sockets

    [readyState]: 0 CONNECTING, 1 OPEN, 2 CLOSING, 3 CLOSED. [sent] is what
    has been written to the socket, oldest first. *)
Record WebSocket := { readyState : N; sent : list Frame }.

Inductive Error :=
| TypeError (what : jsstring)
| SocketNotOpen.

(** ** The process state

    [sockets] holds every WebSocket object the server has been handed, in
    arrival order; a socket is referred to by its index, so the set
    [wsClients] and the closures of the connection handler share one
    object. [wsClients] is the [Set] in insertion order. [timers] are the
    delays of the pending [setTimeout] calls. [waClient] counts the
    [Client] objects constructed so far ([None] is [null]). *)
Record Bridge := {
  clientStatus : ConnectionStatus;
  currentQrDataUrl : option jsstring;
  waClient : option nat;
  wsClients : list nat;
  sockets : list WebSocket;
  timers : list N
}.

Definition initial : Bridge :=
  {| clientStatus := DISCONNECTED; currentQrDataUrl := None; waClient := None;
     wsClients := []; sockets := []; timers := [] |}.

(** ** Handlers as state transformers that may throw *)

Inductive Outcome (A : Type) :=
| Return (a : A) (st : Bridge)
| Throw (e : Error) (st : Bridge).
Arguments Return {A} a st.
Arguments Throw {A} e st.

Definition M (A : Type) := Bridge -> Outcome A.

Definition ret {A} (a : A) : M A := fun st => Return a st.
Definition bind {A B} (m : M A) (k : A -> M B) : M B :=
  fun st => match m st with
            | Return a st' => k a st'
            | Throw e st' => Throw e st'
            end.
Definition throw {A} (e : Error) : M A := fun st => Throw e st.
Definition gets {A} (f : Bridge -> A) : M A := fun st => Return (f st) st.
Definition modify (f : Bridge -> Bridge) : M unit := fun st => Return tt (f st).

Declare Scope js_scope.
Delimit Scope js_scope with js.
Notation "x <- m ;; k" := (bind m (fun x => k))
  (at level 100, m at next level, right associativity) : js_scope.
Notation "m ;; k" := (bind m (fun _ => k))
  (at level 100, right associativity) : js_scope.
Local Open Scope js_scope.

Definition with_clientStatus (s : ConnectionStatus) (st : Bridge) : Bridge :=
  {| clientStatus := s; currentQrDataUrl := currentQrDataUrl st;
     waClient := waClient st; wsClients := wsClients st;
     sockets := sockets st; timers := timers st |}.

Definition with_currentQrDataUrl (q : option jsstring) (st : Bridge) : Bridge :=
  {| clientStatus := clientStatus st; currentQrDataUrl := q;
     waClient := waClient st; wsClients := wsClients st;
     sockets := sockets st; timers := timers st |}.

Definition with_waClient (c : option nat) (st : Bridge) : Bridge :=
  {| clientStatus := clientStatus st; currentQrDataUrl := currentQrDataUrl st;
     waClient := c; wsClients := wsClients st;
     sockets := sockets st; timers := timers st |}.

Definition with_wsClients (l : list nat) (st : Bridge) : Bridge :=
  {| clientStatus := clientStatus st; currentQrDataUrl := currentQrDataUrl st;
     waClient := waClient st; wsClients := l;
     sockets := sockets st; timers := timers st |}.

Definition with_sockets (l : list WebSocket) (st : Bridge) : Bridge :=
  {| clientStatus := clientStatus st; currentQrDataUrl := currentQrDataUrl st;
     waClient := waClient st; wsClients := wsClients st;
     sockets := l; timers := timers st |}.

Definition with_timers (l : list N) (st : Bridge) : Bridge :=
  {| clientStatus := clientStatus st; currentQrDataUrl := currentQrDataUrl st;
     waClient := waClient st; wsClients := wsClients st;
     sockets := sockets st; timers := l |}.

Definition set_clientStatus (s : ConnectionStatus) : M unit := modify (with_clientStatus s).
Definition set_currentQrDataUrl (q : option jsstring) : M unit := modify (with_currentQrDataUrl q).
Definition set_waClient (c : option nat) : M unit := modify (with_waClient c).
Definition set_wsClients (l : list nat) : M unit := modify (with_wsClients l).
Definition set_sockets (l : list WebSocket) : M unit := modify (with_sockets l).
Definition set_timers (l : list N) : M unit := modify (with_timers l).

(** *** The [ws] library, as far as the bridge uses it

    [ws.send(data)] throws while the socket is still CONNECTING, queues
    the frame on an OPEN socket, and drops it on a CLOSING or CLOSED one
    (the error goes to the callback, and none is passed). *)
Definition ws_send (ws : nat) (msg : Frame) : M unit :=
  s <- gets sockets ;;
  match s !! ws with
  | None => ret tt
  | Some sock =>
      if readyState sock =? 0 then throw SocketNotOpen
      else if readyState sock =? 1
      then set_sockets (<[ws := {| readyState := readyState sock;
                                   sent := sent sock ++ [msg] |}]> s)
      else ret tt
  end.

(** [ws.readyState]; a handle always refers to an object of [sockets]. *)
Definition ws_readyState (ws : nat) : M N :=
  s <- gets sockets ;;
  ret (match s !! ws with Some sock => readyState sock | None => 3 end).

(** [ws.close(code, reason)]: an OPEN socket starts the closing handshake. *)
Definition ws_close (ws : nat) : M unit :=
  s <- gets sockets ;;
  match s !! ws with
  | None => ret tt
  | Some sock =>
      if readyState sock =? 3 then ret tt
      else set_sockets (<[ws := {| readyState := 2; sent := sent sock |}]> s)
  end.

(** [Set.prototype.add] and [Set.prototype.delete] *)
Definition Set_add (x : nat) (l : list nat) : list nat :=
  if bool_decide (x ∈ l) then l else l ++ [x].
Definition Set_delete (x : nat) (l : list nat) : list nat :=
  List.filter (fun y => negb (Nat.eqb y x)) l.

(** [for (const x of xs) body] *)
Fixpoint for_of (xs : list nat) (body : nat -> M unit) : M unit :=
  match xs with
  | [] => ret tt
  | x :: xs' => body x ;; for_of xs' body
  end.

(** [[
function broadcast(payload) {
  const msg = JSON.stringify(payload);
  for (const ws of wsClients) {
    if (ws.readyState === 1) ws.send(msg);
  }
}
]]
    The loop body never changes [wsClients], so iterating over the set
    as it is on entry is iterating over the live set. *)
Definition broadcast (payload : Payload) : M unit :=
  let msg := JSON_stringify payload in
  clients <- gets wsClients ;;
  for_of clients (fun ws =>
    rs <- ws_readyState ws ;;
    if rs =? 1 then ws_send ws msg else ret tt).

(** The state an outcome leaves behind. *)
Definition state_of {A} (o : Outcome A) : Bridge :=
  match o with
  | Return _ st => st
  | Throw _ st => st
  end.

(** ** What the external client hands to the bridge *)

(** The outcome of an awaited promise; a rejection carries [err.message]. *)
Inductive Result (A : Type) :=
| Resolved (a : A)
| Rejected (message : value).
Arguments Resolved {A} a.
Arguments Rejected {A} message.

(** The fields of a whatsapp-web.js [Message] that the bridge reads;
    [msg_id] is [msg.id._serialized]. *)
Record Message := {
  msg_id : value;
  msg_from : jsstring;
  msg_to : jsstring;
  msg_body : value;
  msg_type : value;
  msg_timestamp : value;
  msg_fromMe : bool;
  msg_hasMedia : value;
  msg_hasQuotedMsg : value
}.

Record Contact := { pushname : value; name : value; number : value }.

(** [[
async function buildMessagePayload(msg) {
  let contact_name = msg.from;
  try {
    const contact = await msg.getContact();
    contact_name = contact.pushname || contact.name || contact.number || msg.from;
  } catch (_) {}
  return { id: ..., from: msg.from, to: msg.to, ...,
           is_group: msg.from.endsWith("@g.us"), contact_name, ... };
}
]]
    [contact] is what [msg.getContact()] settles to. *)
Definition buildMessagePayload (msg : Message) (contact : Result Contact) : value :=
  let contact_name :=
    match contact with
    | Resolved c =>
        js_or (js_or (js_or (pushname c) (name c)) (number c)) (JStr (msg_from msg))
    | Rejected _ => JStr (msg_from msg)
    end in
  JObj [ (js "id", msg_id msg);
         (js "from", JStr (msg_from msg));
         (js "to", JStr (msg_to msg));
         (js "body", msg_body msg);
         (js "type", msg_type msg);
         (js "timestamp", msg_timestamp msg);
         (js "from_me", JBool (msg_fromMe msg));
         (js "is_group", JBool (endsWith (msg_from msg) (js "@g.us")));
         (js "contact_name", contact_name);
         (js "has_media", msg_hasMedia msg);
         (js "has_quoted", msg_hasQuotedMsg msg) ].

(** ** Lifecycle coordinator: the callbacks registered by [createClient] *)

(** The [qr] callback up to its [await]: the status is set and
    [qrcode.toDataURL(qr)] is started. *)
Definition on_qr_begin (qr : jsstring) : M unit :=
  set_clientStatus QR_READY.

(** The [qr] callback after [await qrcode.toDataURL(qr)] has resolved to
    [dataUrl]. Other callbacks may run between the two halves. *)
Definition on_qr_resume (dataUrl : jsstring) : M unit :=
  set_currentQrDataUrl (Some dataUrl) ;;
  broadcast {| event := js "qr";
               data := JObj [(js "qr_data_url", JStr dataUrl)] |}.

Definition on_authenticated : M unit :=
  set_clientStatus AUTHENTICATED ;;
  set_currentQrDataUrl None ;;
  broadcast {| event := js "authenticated"; data := JUndefined |}.

Definition on_auth_failure (msg : value) : M unit :=
  set_clientStatus AUTH_FAILURE ;;
  broadcast {| event := js "auth_failure"; data := JObj [(js "message", msg)] |}.

(** [info] is [waClient.info] at the time of the callback. *)
Definition on_ready (info : value) : M unit :=
  set_clientStatus READY ;;
  broadcast {| event := js "ready"; data := JObj [(js "info", info)] |}.

Definition on_disconnected (reason : value) : M unit :=
  set_clientStatus DISCONNECTED ;;
  broadcast {| event := js "disconnected"; data := JObj [(js "reason", reason)] |} ;;
  t <- gets timers ;;
  set_timers (t ++ [5000]).

Definition on_message (msg : Message) (contact : Result Contact) : M unit :=
  let payload := buildMessagePayload msg contact in
  broadcast {| event := js "message"; data := payload |}.

Definition on_message_create (msg : Message) (contact : Result Contact) : M unit :=
  if msg_fromMe msg
  then let payload := buildMessagePayload msg contact in
       broadcast {| event := js "message_sent"; data := payload |}
  else ret tt.

Definition on_message_ack (message_id ack : value) : M unit :=
  broadcast {| event := js "message_ack";
               data := JObj [(js "message_id", message_id); (js "ack", ack)] |}.

Definition on_change_state (state : value) : M unit :=
  broadcast {| event := js "state_change"; data := JObj [(js "state", state)] |}.

(** The [.catch] callback of [waClient.initialize()]. *)
Definition on_initialize_rejected (err_message : value) : M unit :=
  set_clientStatus DISCONNECTED.

(** [createClient]: a new [Client], the callbacks above registered on it,
    then
    [[
  clientStatus = "INITIALIZING";
  waClient.initialize().catch(...)
    ]] *)
Definition createClient : M unit :=
  c <- gets waClient ;;
  set_waClient (Some (match c with Some n => S n | None => 1%nat end)) ;;
  set_clientStatus INITIALIZING.

(** The callback of the [setTimeout] set by [on_disconnected]. *)
Definition on_reconnect_timer : M unit :=
  t <- gets timers ;;
  match t with
  | [] => ret tt
  | _ :: t' => set_timers t' ;; createClient
  end.

(** ** Event broadcaster: subscriber registration *)

Definition status_payload (s : ConnectionStatus) : Payload :=
  {| event := js "status"; data := JObj [(js "status", JStr (status_name s))] |}.

(** [[
wss.on("connection", (ws, req) => {
  const url = new URL(req.url, `http://localhost`);
  if (url.searchParams.get("token") !== API_TOKEN) {
    ws.close(4001, "Unauthorized");
    return;
  }
  wsClients.add(ws);
  ws.send(JSON.stringify({ event: "status", data: { status: clientStatus } }));
  ws.on("close", () => { wsClients.delete(ws); });
  ws.on("error", () => { wsClients.delete(ws); });
});
]]
    [token] is [url.searchParams.get("token")], [None] for [null]. *)
Definition on_connection (cfg : Config) (ws : nat) (token : option jsstring) : M unit :=
  if negb (match token with
           | Some t => strict_eq_str t (API_TOKEN cfg)
           | None => false
           end)
  then ws_close ws
  else
    c <- gets wsClients ;;
    set_wsClients (Set_add ws c) ;;
    s <- gets clientStatus ;;
    ws_send ws (JSON_stringify (status_payload s)).

(** The [close] and [error] callbacks of a registered socket. *)
Definition on_ws_close (ws : nat) : M unit :=
  c <- gets wsClients ;;
  set_wsClients (Set_delete ws c).

Definition on_ws_error (ws : nat) : M unit :=
  c <- gets wsClients ;;
  set_wsClients (Set_delete ws c).

(** ** The event loop

    One [Event] is one task of the event loop; the handler it runs is
    atomic. *)
Inductive Event :=
| ServerListening
| ClientQr (qr : jsstring)
| QrEncoded (dataUrl : jsstring)
| ClientAuthenticated
| ClientAuthFailure (msg : value)
| ClientReady (info : value)
| ClientDisconnected (reason : value)
| ClientMessage (msg : Message) (contact : Result Contact)
| ClientMessageCreate (msg : Message) (contact : Result Contact)
| ClientMessageAck (message_id ack : value)
| ClientChangeState (state : value)
| InitializeRejected (err_message : value)
| ReconnectTimerFired
| WsConnection (token : option jsstring)
| WsReadyState (ws : nat) (rs : N)
| WsClose (ws : nat)
| WsError (ws : nat).

(** The server hands a new OPEN socket to the connection handler. *)
Definition accept_socket : M nat :=
  s <- gets sockets ;;
  set_sockets (s ++ [{| readyState := 1; sent := [] |}]) ;;
  ret (length s).

(** The [ws] library moves a socket to another [readyState]. *)
Definition socket_moves (ws : nat) (rs : N) : M unit :=
  s <- gets sockets ;;
  match s !! ws with
  | None => ret tt
  | Some sock => set_sockets (<[ws := {| readyState := rs; sent := sent sock |}]> s)
  end.

(** The task each event runs. The [close] and [error] callbacks exist
    only on sockets the connection handler has registered; on any other
    socket [Set_delete] finds nothing to remove, so running them there is
    the same as having none. A socket is CLOSED when its [close] event is
    emitted. *)
Definition step (cfg : Config) (ev : Event) : M unit :=
  match ev with
  | ServerListening => createClient
  | ClientQr qr => on_qr_begin qr
  | QrEncoded dataUrl => on_qr_resume dataUrl
  | ClientAuthenticated => on_authenticated
  | ClientAuthFailure msg => on_auth_failure msg
  | ClientReady info => on_ready info
  | ClientDisconnected reason => on_disconnected reason
  | ClientMessage msg contact => on_message msg contact
  | ClientMessageCreate msg contact => on_message_create msg contact
  | ClientMessageAck message_id ack => on_message_ack message_id ack
  | ClientChangeState state => on_change_state state
  | InitializeRejected err_message => on_initialize_rejected err_message
  | ReconnectTimerFired => on_reconnect_timer
  | WsConnection token => ws <- accept_socket ;; on_connection cfg ws token
  | WsReadyState ws rs => socket_moves ws rs
  | WsClose ws => socket_moves ws 3 ;; on_ws_close ws
  | WsError ws => on_ws_error ws
  end.

(** A run of the event loop; an exception that escapes a handler ends it. *)
Fixpoint run (cfg : Config) (evs : list Event) : M unit :=
  match evs with
  | [] => ret tt
  | ev :: evs' => step cfg ev ;; run cfg evs'
  end.

(** ** Request gateway *)

(** [authorization] is [req.headers["authorization"]] ([None] when the
    header is missing); [body] is [req.body] ([JUndefined] when no JSON
    body was parsed). *)
Record Request := { authorization : option jsstring; body : value }.

(** The three pages of [GET /api/qr], by what each interpolates. *)
Inductive QrPage :=
| Page_already_authenticated
| Page_waiting (status : jsstring)
| Page_scan (img_src : jsstring).

Inductive Body :=
| Json (v : value)
| Html (page : QrPage).

Record Response := { status_code : N; content : Body }.

(** [res.status(code).json({ error: text })] *)
Definition error_response (code : N) (text : value) : Response :=
  {| status_code := code; content := Json (JObj [(js "error", text)]) |}.

(** [[
function auth(req, res, next) {
  const header = req.headers["authorization"] || "";
  const token = header.replace(/^Bearer\s+/i, "").trim();
  if (token !== API_TOKEN) return res.status(401).json({ error: "Unauthorized" });
  next();
}
]]
    [None] stands for the call of [next()]. *)
Definition auth (cfg : Config) (req : Request) : option Response :=
  let header := match authorization req with Some h => h | None => [] end in
  let token := trim (replace_bearer header) in
  if negb (strict_eq_str token (API_TOKEN cfg))
  then Some (error_response 401 (JStr (js "Unauthorized")))
  else None.

(** [GET /api/qr] (after [auth]). The standalone edition answers the
    first two cases with a JSON message, the add-on with a page. *)
Definition already_authenticated_response (ed : Edition) : Response :=
  match ed with
  | Standalone =>
      {| status_code := 200;
         content := Json (JObj [(js "message",
                                 JStr (js "Already authenticated, no QR needed."))]) |}
  | Addon => {| status_code := 200; content := Html Page_already_authenticated |}
  end.

Definition waiting_response (ed : Edition) (s : ConnectionStatus) : Response :=
  match ed with
  | Standalone =>
      {| status_code := 200;
         content := Json (JObj [(js "message",
                                 JStr (js "QR not yet generated. Status: "
                                       ++ status_name s))]) |}
  | Addon => {| status_code := 200; content := Html (Page_waiting (status_name s)) |}
  end.

Definition scan_response (url : jsstring) : Response :=
  {| status_code := 200; content := Html (Page_scan url) |}.

Definition api_qr (cfg : Config) (st : Bridge) : Response :=
  if is_READY (clientStatus st) || is_AUTHENTICATED (clientStatus st)
  then already_authenticated_response (edition cfg)
  else
    match currentQrDataUrl st with
    | None | Some [] => waiting_response (edition cfg) (clientStatus st)
    | Some url => scan_response url
    end.

(** [POST /api/send] *)

Record SentMessage := { sent_id : value; sent_timestamp : value }.

(** The calls a handler makes on the external client and on
    [MessageMedia], in order. *)
Inductive ClientCall :=
| Call_fromUrl (url filename : value)
| Call_sendMessage (chatId content options : value).

(** How a request ends: a response was written, or the [async] handler
    threw outside its [try] and wrote none. *)
Inductive Reply :=
| Responded (r : Response)
| Unhandled (e : Error).

Record Served := { reply : Reply; client_calls : list ClientCall }.

(** [to.includes("@") ? to : `${to.replace(/\D/g, "")}@c.us`] for a truthy
    [to]. On a string this is the intended normalisation; an array has
    [includes] but no [replace]; the other values have neither. *)
Definition chatId_of (to : value) : Error + value :=
  match to with
  | JStr s =>
      inr (JStr (if includes s (js "@") then s
                 else strip_non_digits s ++ js "@c.us"))
  | JArr items =>
      if existsb (strict_eq_str (js "@")) items then inr (JArr items)
      else inl (TypeError (js "to.replace is not a function"))
  | _ => inl (TypeError (js "to.includes is not a function"))
  end.

Definition not_ready_text (ed : Edition) : jsstring :=
  match ed with
  | Standalone => js "WhatsApp client not ready. Status: "
  | Addon => js "WhatsApp not ready. Status: "
  end.

Definition message_required_text (ed : Edition) : jsstring :=
  match ed with
  | Standalone => js "'message' is required when no media_url"
  | Addon => js "'message' is required"
  end.

Section Gateway.

(** The external collaborators: what [MessageMedia.fromUrl(url,
    { unsafeMime: true, filename })] and [waClient.sendMessage(chatId,
    content, options)] settle to. *)
Variable MessageMedia_fromUrl : value -> value -> Result value.
Variable waClient_sendMessage : value -> value -> value -> Result SentMessage.

Definition sent_response (m : SentMessage) : Response :=
  {| status_code := 200;
     content := Json (JObj [ (js "success", JBool true);
                             (js "message_id", sent_id m);
                             (js "timestamp", sent_timestamp m) ]) |}.

Definition api_send (cfg : Config) (st : Bridge) (req : Request) : Served :=
  if negb (is_READY (clientStatus st))
  then {| reply := Responded (error_response 503
                     (JStr (not_ready_text (edition cfg) ++ status_name (clientStatus st))));
          client_calls := [] |}
  else
    let b := js_or (body req) (JObj []) in
    let to := prop b "to" in
    let message := prop b "message" in
    let media_url := prop b "media_url" in
    let media_filename := prop b "media_filename" in
    if negb (truthy to)
    then {| reply := Responded (error_response 400 (JStr (js "'to' is required")));
            client_calls := [] |}
    else
      match chatId_of to with
      | inl e => {| reply := Unhandled e; client_calls := [] |}
      | inr chatId =>
          if truthy media_url
          then
            match MessageMedia_fromUrl media_url media_filename with
            | Rejected m =>
                {| reply := Responded (error_response 500 m);
                   client_calls := [Call_fromUrl media_url media_filename] |}
            | Resolved media =>
                let options := JObj [(js "caption", js_or message JUndefined)] in
                {| reply :=
                     match waClient_sendMessage chatId media options with
                     | Resolved sentMsg => Responded (sent_response sentMsg)
                     | Rejected m => Responded (error_response 500 m)
                     end;
                   client_calls := [Call_fromUrl media_url media_filename;
                                    Call_sendMessage chatId media options] |}
            end
          else if negb (truthy message)
          then {| reply := Responded (error_response 400
                             (JStr (message_required_text (edition cfg))));
                  client_calls := [] |}
          else
            {| reply :=
                 match waClient_sendMessage chatId message JUndefined with
                 | Resolved sentMsg => Responded (sent_response sentMsg)
                 | Rejected m => Responded (error_response 500 m)
                 end;
               client_calls := [Call_sendMessage chatId message JUndefined] |}
      end.

(** [app.post("/api/send", auth, handler)]: the handler runs only after
    [auth] has called [next()]. *)
Definition post_api_send (cfg : Config) (st : Bridge) (req : Request) : Served :=
  match auth cfg req with
  | Some r => {| reply := Responded r; client_calls := [] |}
  | None => api_send cfg st req
  end.

End Gateway.

(** [app.get("/api/qr", auth, handler)] *)
Definition get_api_qr (cfg : Config) (st : Bridge) (req : Request) : Response :=
  match auth cfg req with
  | Some r => r
  | None => api_qr cfg st
  end.

(** ** The other routes of the gateway *)

(** The fields of a whatsapp-web.js [Chat] that the bridge reads;
    [chat_id] is [c.id._serialized], and [chat_lastMessage] is the [body]
    of [c.lastMessage] when there is a last message. *)
Record Chat := {
  chat_id : value;
  chat_name : value;
  chat_isGroup : value;
  chat_unreadCount : value;
  chat_timestamp : value;
  chat_lastMessage : option value
}.

(** The calls the other routes make on the external client. *)
Inductive GatewayCall :=
| Call_requestPairingCode (phone : jsstring)
| Call_logout
| Call_getChats.

Record Answered := { answer : Reply; gateway_calls : list GatewayCall }.

(** [err.message] of an error raised by the engine or by [ws]. *)
Definition error_message (e : Error) : jsstring :=
  match e with
  | TypeError what => what
  | SocketNotOpen => js "WebSocket is not open: readyState 0 (CONNECTING)"
  end.

(** Reading a method off [waClient] while it is still [null]. *)
Definition null_client (method : string) : Error :=
  TypeError (js "Cannot read properties of null (reading '" ++ js method ++ js "')").

(** One element of the array answered by [GET /api/chats]. *)
Definition chat_summary (c : Chat) : value :=
  JObj [ (js "id", chat_id c);
         (js "name", chat_name c);
         (js "is_group", chat_isGroup c);
         (js "unread_count", chat_unreadCount c);
         (js "timestamp", chat_timestamp c);
         (js "last_message",
          js_or (match chat_lastMessage c with Some b => b | None => JUndefined end)
                JNull) ].

Section Routes.

(** The external client as the routes see it: [waClient.info], and what
    [requestPairingCode(phone)], [logout()] and [getChats()] settle to. *)
Variable waClient_info : value.
Variable waClient_requestPairingCode : jsstring -> Result value.
Variable waClient_logout : Result unit.
Variable waClient_getChats : Result (list Chat).

(** [[
app.get("/api/status", auth, (_req, res) => {
  res.json({
    status: clientStatus,
    info: clientStatus === "READY" && waClient?.info ? waClient.info : null,
  });
});
]] *)
Definition api_status (st : Bridge) : Response :=
  let info := match waClient st with Some _ => waClient_info | None => JUndefined end in
  {| status_code := 200;
     content := Json (JObj [ (js "status", JStr (status_name (clientStatus st)));
                             (js "info",
                              if is_READY (clientStatus st) && truthy info
                              then info else JNull) ]) |}.

(** [[
app.post("/api/pairing-code", auth, async (req, res) => {
  const { phone } = req.body || {};
  if (!phone) return res.status(400).json({ error: "phone is required" });
  try {
    const code = await waClient.requestPairingCode(phone.replace(/\D/g, ""));
    res.json({ code });
  } catch (err) {
    res.status(500).json({ error: err.message });
  }
});
]]
    The method is read off [waClient] before the argument is evaluated;
    only a string has [replace]. *)
Definition api_pairing_code (st : Bridge) (req : Request) : Answered :=
  let phone := prop (js_or (body req) (JObj [])) "phone" in
  if negb (truthy phone)
  then {| answer := Responded (error_response 400 (JStr (js "phone is required")));
          gateway_calls := [] |}
  else
    match waClient st with
    | None =>
        {| answer := Responded (error_response 500
                       (JStr (error_message (null_client "requestPairingCode"))));
           gateway_calls := [] |}
    | Some _ =>
        match phone with
        | JStr s =>
            let digits := strip_non_digits s in
            {| answer :=
                 match waClient_requestPairingCode digits with
                 | Resolved code =>
                     Responded {| status_code := 200;
                                  content := Json (JObj [(js "code", code)]) |}
                 | Rejected m => Responded (error_response 500 m)
                 end;
               gateway_calls := [Call_requestPairingCode digits] |}
        | _ =>
            {| answer := Responded (error_response 500
                           (JStr (error_message
                                    (TypeError (js "phone.replace is not a function")))));
               gateway_calls := [] |}
        end
    end.

(** [[
app.post("/api/logout", auth, async (_req, res) => {
  try {
    await waClient.logout();
    res.json({ success: true });
  } catch (err) {
    res.status(500).json({ error: err.message });
  }
});
]] *)
Definition api_logout (st : Bridge) : Answered :=
  match waClient st with
  | None =>
      {| answer := Responded (error_response 500
                     (JStr (error_message (null_client "logout"))));
         gateway_calls := [] |}
  | Some _ =>
      {| answer :=
           match waClient_logout with
           | Resolved _ =>
               Responded {| status_code := 200;
                            content := Json (JObj [(js "success", JBool true)]) |}
           | Rejected m => Responded (error_response 500 m)
           end;
         gateway_calls := [Call_logout] |}
  end.

(** [[
app.get("/api/chats", auth, async (_req, res) => {
  if (clientStatus !== "READY") return res.status(503).json({ error: "Not ready" });
  try {
    const chats = await waClient.getChats();
    res.json(chats.slice(0, 50).map((c) => ({ ... })));
  } catch (err) {
    res.status(500).json({ error: err.message });
  }
});
]] *)
Definition api_chats (st : Bridge) : Answered :=
  if negb (is_READY (clientStatus st))
  then {| answer := Responded (error_response 503 (JStr (js "Not ready")));
          gateway_calls := [] |}
  else
    match waClient st with
    | None =>
        {| answer := Responded (error_response 500
                       (JStr (error_message (null_client "getChats"))));
           gateway_calls := [] |}
    | Some _ =>
        {| answer :=
             match waClient_getChats with
             | Resolved chats =>
                 Responded {| status_code := 200;
                              content := Json (JArr (map chat_summary (take 50 chats))) |}
             | Rejected m => Responded (error_response 500 m)
             end;
           gateway_calls := [Call_getChats] |}
    end.

(** A route registered as [app.METHOD(path, auth, handler)]. *)
Definition behind_auth (cfg : Config) (req : Request) (handler : Answered) : Answered :=
  match auth cfg req with
  | Some r => {| answer := Responded r; gateway_calls := [] |}
  | None => handler
  end.

Definition get_api_status (cfg : Config) (st : Bridge) (req : Request) : Response :=
  match auth cfg req with
  | Some r => r
  | None => api_status st
  end.

Definition post_api_pairing_code (cfg : Config) (st : Bridge) (req : Request) : Answered :=
  behind_auth cfg req (api_pairing_code st req).

Definition post_api_logout (cfg : Config) (st : Bridge) (req : Request) : Answered :=
  behind_auth cfg req (api_logout st).

Definition get_api_chats (cfg : Config) (st : Bridge) (req : Request) : Answered :=
  behind_auth cfg req (api_chats st).

End Routes.

(** ** puppeteer.config.cjs *)

Definition chromium_candidates : list jsstring :=
  [ js "/usr/local/bin/chromium-wr";
    js "/usr/bin/chromium-browser";
    js "/usr/bin/chromium";
    js "/usr/lib/chromium/chromium" ].

(** [[
function findChromium() {
  if (process.env.PUPPETEER_EXECUTABLE_PATH && fs.existsSync(process.env.PUPPETEER_EXECUTABLE_PATH)) {
    return process.env.PUPPETEER_EXECUTABLE_PATH;
  }
  const candidates = [ ... ];
  for (const p of candidates) {
    if (fs.existsSync(p)) return p;
  }
  return undefined;
}
]]
    [env_path] is [process.env.PUPPETEER_EXECUTABLE_PATH] ([None] when
    unset), [existsSync] the file system as [fs.existsSync] sees it;
    [None] is [undefined]. *)
Definition findChromium (env_path : option jsstring) (existsSync : jsstring -> bool)
  : option jsstring :=
  if match env_path with
     | Some p => truthy (JStr p) && existsSync p
     | None => false
     end
  then env_path
  else List.find existsSync chromium_candidates.

(** ** The session as the lifecycle signals alone determine it *)

(** What of the process state the lifecycle owns: the status, the stored
    QR image, how many reconnect timers are pending and how many clients
    have been constructed. *)
Record Session := {
  s_status : ConnectionStatus;
  s_qr : option jsstring;
  s_pending : nat;
  s_clients : nat
}.

Definition session_of (st : Bridge) : Session :=
  {| s_status := clientStatus st;
     s_qr := currentQrDataUrl st;
     s_pending := length (timers st);
     s_clients := match waClient st with Some n => n | None => 0%nat end |}.

(** The transition each event stands for; subscriber traffic and message
    events stand for none. *)
Definition signal (s : Session) (ev : Event) : Session :=
  match ev with
  | ServerListening =>
      {| s_status := INITIALIZING; s_qr := s_qr s;
         s_pending := s_pending s; s_clients := S (s_clients s) |}
  | ClientQr _ =>
      {| s_status := QR_READY; s_qr := s_qr s;
         s_pending := s_pending s; s_clients := s_clients s |}
  | QrEncoded dataUrl =>
      {| s_status := s_status s; s_qr := Some dataUrl;
         s_pending := s_pending s; s_clients := s_clients s |}
  | ClientAuthenticated =>
      {| s_status := AUTHENTICATED; s_qr := None;
         s_pending := s_pending s; s_clients := s_clients s |}
  | ClientAuthFailure _ =>
      {| s_status := AUTH_FAILURE; s_qr := s_qr s;
         s_pending := s_pending s; s_clients := s_clients s |}
  | ClientReady _ =>
      {| s_status := READY; s_qr := s_qr s;
         s_pending := s_pending s; s_clients := s_clients s |}
  | ClientDisconnected _ =>
      {| s_status := DISCONNECTED; s_qr := s_qr s;
         s_pending := S (s_pending s); s_clients := s_clients s |}
  | InitializeRejected _ =>
      {| s_status := DISCONNECTED; s_qr := s_qr s;
         s_pending := s_pending s; s_clients := s_clients s |}
  | ReconnectTimerFired =>
      match s_pending s with
      | O => s
      | S n => {| s_status := INITIALIZING; s_qr := s_qr s;
                  s_pending := n; s_clients := S (s_clients s) |}
      end
  | _ => s
  end.

(** Subscriber traffic and message events: everything that is not a
    lifecycle signal of the client, the server start or the timer. *)
Definition is_traffic (ev : Event) : bool :=
  match ev with
  | ClientMessage _ _ | ClientMessageCreate _ _ | ClientMessageAck _ _
  | ClientChangeState _ | WsConnection _ | WsReadyState _ _ | WsClose _ | WsError _ => true
  | _ => false
  end.

(** How many of the events construct a client at once or schedule one. *)
Definition starts_or_drops (ev : Event) : bool :=
  match ev with
  | ServerListening | ClientDisconnected _ => true
  | _ => false
  end.

(** ** The claims' own vocabulary *)

(** ASCII lower-casing, for "case-insensitively". *)
Definition lower (c : N) : N :=
  if (65 <=? c) && (c <=? 90) then c + 32 else c.

(** Stripping one optional leading scheme word: when the header begins
    with the six letters of "bearer" in any letter case followed by a
    white-space code unit, those seven code units are removed once. *)
Definition strip_scheme (header : jsstring) : jsstring :=
  if bool_decide (map lower (take 6 header) = js "bearer")
  then match drop 6 header with
       | sp :: rest => if is_space sp then rest else header
       | [] => header
       end
  else header.

(** The token a header presents, in the claim's words: strip the scheme
    word, then trim surrounding white space. *)
Definition presented_token (header : jsstring) : jsstring :=
  trim (strip_scheme header).

(** A frame is a [status] event. *)
Definition is_status_frame (f : Frame) : bool :=
  str_eqb (event (frame_payload f)) (js "status").

(** ** Auxiliary definitions for the proofs *)

(** What one turn of the loop of [broadcast] does to the sockets. *)
Definition deliver_one (msg : Frame) (ws : nat) (socks : list WebSocket) : list WebSocket :=
  match socks !! ws with
  | Some sock =>
      if readyState sock =? 1
      then <[ws := {| readyState := readyState sock; sent := sent sock ++ [msg] |}]> socks
      else socks
  | None => socks
  end.

Fixpoint deliver_all (msg : Frame) (clients : list nat) (socks : list WebSocket)
  : list WebSocket :=
  match clients with
  | [] => socks
  | ws :: clients' => deliver_all msg clients' (deliver_one msg ws socks)
  end.

(** How often a handle occurs in a list of handles. *)
Definition occurrences (ws : nat) (l : list nat) : nat :=
  length (List.filter (Nat.eqb ws) l).

(** [st'] extends [st] quietly when every socket of [st] is still there
    and has been written nothing but frames that are not [status]
    events. *)
Definition quiet_frames (more : list Frame) : Prop :=
  Forall (fun f => is_status_frame f = false) more.

Definition grows_quietly (st st' : Bridge) : Prop :=
  forall ws sock, sockets st !! ws = Some sock ->
    exists rs more,
      sockets st' !! ws = Some {| readyState := rs; sent := sent sock ++ more |}
      /\ quiet_frames more.

(** A computation that returns and extends the state quietly. *)
Definition quiet {A} (m : M A) : Prop :=
  forall st, exists a st', m st = Return a st' /\ grows_quietly st st'.

(** The token test of the connection handler. *)
Definition token_ok (cfg : Config) (token : option jsstring) : bool :=
  match token with
  | Some t => strict_eq_str t (API_TOKEN cfg)
  | None => false
  end.

(** ** What one task does to the sockets and to the subscriber set *)

(** The [ws] library moving socket [ws] to [rs], on the socket list. *)
Definition move_socket (ws : nat) (rs : N) (socks : list WebSocket) : list WebSocket :=
  match socks !! ws with
  | Some sock => <[ws := {| readyState := rs; sent := sent sock |}]> socks
  | None => socks
  end.

Inductive task_effect (st st' : Bridge) : Prop :=
| effect_none :
    sockets st' = sockets st -> wsClients st' = wsClients st -> task_effect st st'
| effect_broadcast (payload : Payload) :
    sockets st' = deliver_all (JSON_stringify payload) (wsClients st) (sockets st) ->
    wsClients st' = wsClients st -> task_effect st st'
| effect_accept :
    sockets st'
    = sockets st ++ [{| readyState := 1;
                        sent := [JSON_stringify (status_payload (clientStatus st))] |}] ->
    wsClients st' = Set_add (length (sockets st)) (wsClients st) -> task_effect st st'
| effect_refuse :
    sockets st' = sockets st ++ [{| readyState := 2; sent := [] |}] ->
    wsClients st' = wsClients st -> task_effect st st'
| effect_move (ws : nat) (rs : N) :
    sockets st' = move_socket ws rs (sockets st) ->
    wsClients st' = wsClients st -> task_effect st st'
| effect_close (ws : nat) :
    sockets st' = move_socket ws 3 (sockets st) ->
    wsClients st' = Set_delete ws (wsClients st) -> task_effect st st'
| effect_error (ws : nat) :
    sockets st' = sockets st ->
    wsClients st' = Set_delete ws (wsClients st) -> task_effect st st'.

(** The event is about socket [ws] itself: the library moves it, or its
    [close] or [error] callback runs. *)
Definition touches (ws : nat) (ev : Event) : bool :=
  match ev with
  | WsReadyState w _ | WsClose w | WsError w => Nat.eqb w ws
  | _ => false
  end.

(** The frames an event publishes to the subscribers, in order: one frame
    for each lifecycle, message, ack and state-change event, none for a
    [message_create] of somebody else's message, and none for the rest. *)
Definition published (ev : Event) : list Frame :=
  match ev with
  | QrEncoded dataUrl =>
      [JSON_stringify {| event := js "qr";
                         data := JObj [(js "qr_data_url", JStr dataUrl)] |}]
  | ClientAuthenticated =>
      [JSON_stringify {| event := js "authenticated"; data := JUndefined |}]
  | ClientAuthFailure msg =>
      [JSON_stringify {| event := js "auth_failure";
                         data := JObj [(js "message", msg)] |}]
  | ClientReady info =>
      [JSON_stringify {| event := js "ready"; data := JObj [(js "info", info)] |}]
  | ClientDisconnected reason =>
      [JSON_stringify {| event := js "disconnected";
                         data := JObj [(js "reason", reason)] |}]
  | ClientMessage msg contact =>
      [JSON_stringify {| event := js "message";
                         data := buildMessagePayload msg contact |}]
  | ClientMessageCreate msg contact =>
      if msg_fromMe msg
      then [JSON_stringify {| event := js "message_sent";
                              data := buildMessagePayload msg contact |}]
      else []
  | ClientMessageAck message_id ack =>
      [JSON_stringify {| event := js "message_ack";
                         data := JObj [(js "message_id", message_id); (js "ack", ack)] |}]
  | ClientChangeState state =>
      [JSON_stringify {| event := js "state_change";
                         data := JObj [(js "state", state)] |}]
  | _ => []
  end.

(** Every handle of the subscriber set refers to a socket. *)
Definition handles_valid (st : Bridge) : Prop :=
  forall ws, ws ∈ wsClients st -> (ws < length (sockets st))%nat.

(** The frames written to socket [ws] so far. *)
Definition frames (st : Bridge) (ws : nat) : option (list Frame) :=
  sent <$> sockets st !! ws.

(** ** Sample configuration, states and messages for closed examples *)

Definition sample_cfg : Config :=
  {| edition := Addon; api_token := JStr (js "secret") |}.

(** One registered subscriber whose socket has since been closed by the
    library, before its [close] event has run. *)
Definition stale_subscriber_state : Bridge :=
  state_of (run sample_cfg
              [ServerListening; WsConnection (Some (js "secret")); WsReadyState 0 3]
              initial).

(** Three sockets: an OPEN subscriber, a CLOSED one still registered,
    and an OPEN socket that is not registered. *)
Definition mixed_sockets_state : Bridge :=
  {| clientStatus := READY; currentQrDataUrl := None; waClient := Some 1%nat;
     wsClients := [0%nat; 1%nat];
     sockets := [ {| readyState := 1; sent := [] |};
                  {| readyState := 3; sent := [] |};
                  {| readyState := 1; sent := [] |} ];
     timers := [] |}.

(** External collaborators for closed examples: the media fetch fails
    and the client accepts every message. *)
Definition sample_fromUrl (url filename : value) : Result value :=
  Rejected (JStr (js "fetch failed")).
Definition sample_sendMessage (chatId content options : value) : Result SentMessage :=
  Resolved {| sent_id := JStr (js "true_15551234567@c.us_3EB0");
              sent_timestamp := JNum 1700000000 |}.

Definition ready_state : Bridge := with_clientStatus READY initial.

(** READY with a client constructed. *)
Definition ready_with_client : Bridge :=
  with_clientStatus READY (with_waClient (Some 1%nat) initial).

Definition bearer (token : string) (b : value) : Request :=
  {| authorization := Some (js "Bearer " ++ js token); body := b |}.

(** A message of this session to a group: [from] is the session's own
    identifier, [to] the group, and [is_group] comes out false. *)
Definition sample_own_group_message : Message :=
  {| msg_id := JStr (js "true_120363041234567890@g.us_3EB0");
     msg_from := js "15551234567@c.us";
     msg_to := js "120363041234567890@g.us";
     msg_body := JStr (js "hello group");
     msg_type := JStr (js "chat");
     msg_timestamp := JNum 1700000000;
     msg_fromMe := true;
     msg_hasMedia := JBool false;
     msg_hasQuotedMsg := JBool false |}.

(** ** Strings *)

Lemma str_eqb_eq (s t : jsstring) : str_eqb s t = true <-> s = t.
Proof.
  revert t. induction s as [|a s IH]; intros [|b t]; simpl; split;
    try congruence; try discriminate.
  - rewrite andb_true_iff, N.eqb_eq, IH. intros [-> ->]. reflexivity.
  - intros E. injection E as -> ->. rewrite N.eqb_refl. simpl. apply IH. reflexivity.
Qed.

Lemma str_eqb_refl (s : jsstring) : str_eqb s s = true.
Proof. apply str_eqb_eq. reflexivity. Qed.

Lemma startsWith_nil (s : jsstring) : startsWith s [] = true.
Proof. destruct s; reflexivity. Qed.

Lemma includes_code_unit (s : jsstring) (c : N) :
  includes s [c] = true <-> c ∈ s.
Proof.
  induction s as [|a s IH]; simpl.
  - split; [discriminate | intros H; inversion H].
  - rewrite startsWith_nil, andb_true_r, orb_true_iff, N.eqb_eq, IH, elem_of_cons.
    split; intros [H|H]; auto.
Qed.

Lemma endsWith_suffix (s t : jsstring) :
  endsWith s t = true <-> exists p, s = p ++ t.
Proof.
  unfold endsWith. split.
  - destruct (Nat.leb_spec (length t) (length s)) as [Hle|Hlt]; [|discriminate].
    intros H. apply str_eqb_eq in H.
    exists (take (length s - length t)%nat s).
    rewrite <- H at 2. symmetry. apply take_drop.
  - intros [p ->]. rewrite length_app.
    destruct (Nat.leb_spec (length t) (length p + length t)) as [_|Hlt]; [|lia].
    replace (length p + length t - length t)%nat with (length p) by lia.
    rewrite drop_app_length. apply str_eqb_refl.
Qed.

Lemma dropWhile_idem (p : N -> bool) (s : jsstring) :
  dropWhile p (dropWhile p s) = dropWhile p s.
Proof.
  induction s as [|c s IH]; simpl; [reflexivity|].
  destruct (p c) eqn:E; [exact IH|]. simpl. rewrite E. reflexivity.
Qed.

Lemma trim_trimStart (s : jsstring) : trim (trimStart s) = trim s.
Proof. unfold trim, trimStart. rewrite dropWhile_idem. reflexivity. Qed.

(** The [i]-flag comparison of the engine against a letter is comparison
    after lower-casing. *)
Lemma canonicalize_lower (c p : N) :
  (65 <= p <= 90 \/ 97 <= p <= 122) ->
  (canonicalize c =? canonicalize p) = (lower c =? lower p).
Proof.
  intros Hp. unfold canonicalize, lower.
  destruct (N.leb_spec 97 c), (N.leb_spec c 122), (N.leb_spec 65 c), (N.leb_spec c 90),
    (N.leb_spec 97 p), (N.leb_spec p 122), (N.leb_spec 65 p), (N.leb_spec p 90);
    simpl; try lia;
    match goal with
    | |- (?a =? ?b) = (?x =? ?y) =>
        destruct (N.eqb_spec a b), (N.eqb_spec x y); try reflexivity; lia
    end.
Qed.

Lemma matches_ci_bearer (h : jsstring) :
  matches_ci h (js "Bearer") = true <-> map lower (take 6 h) = js "bearer".
Proof.
  change (js "Bearer") with [66; 101; 97; 114; 101; 114].
  change (js "bearer") with [98; 101; 97; 114; 101; 114].
  destruct h as [|c1 [|c2 [|c3 [|c4 [|c5 [|c6 h]]]]]];
    cbn [matches_ci map take];
    try (split; [rewrite ?andb_false_r; discriminate | discriminate]).
  rewrite !canonicalize_lower by lia.
  replace (matches_ci h []) with true by (destruct h; reflexivity).
  rewrite take_0. cbn [map].
  rewrite andb_true_r, !andb_true_iff, !N.eqb_eq.
  change (lower 66) with 98. change (lower 101) with 101.
  change (lower 97) with 97. change (lower 114) with 114.
  split.
  - intros (-> & -> & -> & -> & -> & ->). reflexivity.
  - intros H. injection H as -> -> -> -> -> ->. repeat split.
Qed.

(** The engine's replacement followed by [trim] presents the same token
    as stripping the scheme word once and trimming. *)
Lemma trim_replace_bearer (h : jsstring) :
  trim (replace_bearer h) = presented_token h.
Proof.
  unfold presented_token, replace_bearer, strip_scheme.
  destruct (matches_ci h (js "Bearer")) eqn:E.
  - apply matches_ci_bearer in E. rewrite bool_decide_eq_true_2 by exact E.
    simpl. destruct (drop 6 h) as [|sp rest]; [reflexivity|].
    destruct (is_space sp) eqn:Es; [|reflexivity].
    simpl. rewrite Es. apply (trim_trimStart rest).
  - simpl. rewrite bool_decide_eq_false_2; [reflexivity|].
    intros H. apply matches_ci_bearer in H. congruence.
Qed.

(** ** Fan-out *)

Lemma with_sockets_same (st : Bridge) : with_sockets (sockets st) st = st.
Proof. destruct st; reflexivity. Qed.

Lemma loop_turn (msg : Frame) (ws : nat) (st : Bridge) :
  (rs <- ws_readyState ws ;; if rs =? 1 then ws_send ws msg else ret tt) st
  = Return tt (with_sockets (deliver_one msg ws (sockets st)) st).
Proof.
  unfold deliver_one.
  cbv [bind ws_readyState ws_send gets ret throw set_sockets modify].
  destruct (sockets st !! ws) as [sock|] eqn:E; rewrite ?E;
    [|rewrite with_sockets_same; reflexivity].
  destruct (readyState sock =? 1) eqn:Ho; rewrite ?E, ?Ho;
    [|rewrite with_sockets_same; reflexivity].
  apply N.eqb_eq in Ho. rewrite Ho. reflexivity.
Qed.

Lemma for_of_deliver (msg : Frame) (clients : list nat) (st : Bridge) :
  for_of clients (fun ws =>
    rs <- ws_readyState ws ;; if rs =? 1 then ws_send ws msg else ret tt) st
  = Return tt (with_sockets (deliver_all msg clients (sockets st)) st).
Proof.
  revert st. induction clients as [|ws clients IH]; intros st; simpl.
  - unfold ret. rewrite with_sockets_same. reflexivity.
  - unfold bind at 1. rewrite loop_turn, IH. reflexivity.
Qed.

(** [broadcast] as a function on the state: it returns, and only the
    sockets change. *)
Lemma broadcast_run (payload : Payload) (st : Bridge) :
  broadcast payload st
  = Return tt (with_sockets
                 (deliver_all (JSON_stringify payload) (wsClients st) (sockets st)) st).
Proof. unfold broadcast, bind, gets. apply for_of_deliver. Qed.

Lemma deliver_one_length msg ws socks :
  length (deliver_one msg ws socks) = length socks.
Proof.
  unfold deliver_one. destruct (socks !! ws) as [sock|]; [|reflexivity].
  destruct (readyState sock =? 1); [apply length_insert | reflexivity].
Qed.

Lemma deliver_all_length msg clients socks :
  length (deliver_all msg clients socks) = length socks.
Proof.
  revert socks. induction clients as [|ws clients IH]; intros socks; simpl;
    [reflexivity|]. rewrite IH. apply deliver_one_length.
Qed.

Lemma deliver_one_lookup msg ws socks i sock :
  socks !! i = Some sock ->
  deliver_one msg ws socks !! i
  = Some {| readyState := readyState sock;
            sent := sent sock ++
                    (if (readyState sock =? 1) && Nat.eqb i ws then [msg] else []) |}.
Proof.
  intros Hi. unfold deliver_one.
  destruct (Nat.eqb_spec i ws) as [->|Hne].
  - rewrite Hi. destruct (readyState sock =? 1) eqn:Ho; simpl.
    + rewrite list_lookup_insert_eq by (eapply lookup_lt_Some; eauto).
      apply N.eqb_eq in Ho. rewrite Ho. reflexivity.
    + rewrite Hi, app_nil_r. destruct sock; reflexivity.
  - rewrite andb_false_r, app_nil_r.
    destruct (socks !! ws) as [sock'|]; [|rewrite Hi; destruct sock; reflexivity].
    destruct (readyState sock' =? 1).
    + rewrite list_lookup_insert_ne by congruence. rewrite Hi. destruct sock; reflexivity.
    + rewrite Hi. destruct sock; reflexivity.
Qed.

Lemma deliver_all_lookup msg clients socks i sock :
  socks !! i = Some sock ->
  deliver_all msg clients socks !! i
  = Some {| readyState := readyState sock;
            sent := sent sock ++
                    replicate (if readyState sock =? 1 then occurrences i clients else 0%nat)
                              msg |}.
Proof.
  revert socks sock. induction clients as [|ws clients IH]; intros socks sock Hi; simpl.
  - unfold occurrences. simpl. destruct (readyState sock =? 1); simpl;
      rewrite app_nil_r, Hi; destruct sock; reflexivity.
  - rewrite (IH _ _ (deliver_one_lookup msg ws socks i sock Hi)). simpl.
    unfold occurrences. simpl.
    destruct (readyState sock =? 1); simpl.
    + destruct (Nat.eqb i ws); simpl; rewrite <- app_assoc; reflexivity.
    + rewrite app_nil_r. reflexivity.
Qed.

Lemma occurrences_notin (ws : nat) (l : list nat) : ws ∉ l -> occurrences ws l = 0%nat.
Proof.
  unfold occurrences. induction l as [|x l IH]; intros H; simpl; [reflexivity|].
  apply not_elem_of_cons in H as [Hne Hl].
  destruct (Nat.eqb_spec ws x); [congruence|]. apply IH, Hl.
Qed.

Lemma occurrences_NoDup (ws : nat) (l : list nat) :
  NoDup l -> ws ∈ l -> occurrences ws l = 1%nat.
Proof.
  unfold occurrences. induction 1 as [|x l Hx Hl IH]; intros Hin; simpl.
  - inversion Hin.
  - destruct (Nat.eqb_spec ws x) as [->|Hne]; simpl.
    + f_equal. apply (occurrences_notin x l Hx).
    + apply elem_of_cons in Hin as [?|Hin]; [congruence|]. apply IH, Hin.
Qed.

(** ** Handlers as functions on the state *)

Lemma bind_run {A B} (m : M A) (k : A -> M B) (st st' : Bridge) (a : A) :
  m st = Return a st' -> bind m k st = k a st'.
Proof. intros H. unfold bind. rewrite H. reflexivity. Qed.

Lemma on_authenticated_run (st : Bridge) :
  on_authenticated st
  = Return tt
      (with_sockets
         (deliver_all (JSON_stringify {| event := js "authenticated"; data := JUndefined |})
                      (wsClients st) (sockets st))
         (with_currentQrDataUrl None (with_clientStatus AUTHENTICATED st))).
Proof.
  unfold on_authenticated.
  cbv [bind set_clientStatus set_currentQrDataUrl modify].
  rewrite broadcast_run. reflexivity.
Qed.

Lemma on_ready_run (info : value) (st : Bridge) :
  on_ready info st
  = Return tt
      (with_sockets
         (deliver_all (JSON_stringify {| event := js "ready";
                                         data := JObj [(js "info", info)] |})
                      (wsClients st) (sockets st))
         (with_clientStatus READY st)).
Proof.
  unfold on_ready. cbv [bind set_clientStatus modify].
  rewrite broadcast_run. reflexivity.
Qed.

Lemma on_disconnected_run (reason : value) (st : Bridge) :
  on_disconnected reason st
  = Return tt
      (with_timers (timers st ++ [5000])
         (with_sockets
            (deliver_all (JSON_stringify {| event := js "disconnected";
                                            data := JObj [(js "reason", reason)] |})
                         (wsClients st) (sockets st))
            (with_clientStatus DISCONNECTED st))).
Proof.
  unfold on_disconnected. cbv [bind set_clientStatus set_timers gets modify].
  rewrite broadcast_run. reflexivity.
Qed.

Lemma on_initialize_rejected_run (err_message : value) (st : Bridge) :
  on_initialize_rejected err_message st = Return tt (with_clientStatus DISCONNECTED st).
Proof. reflexivity. Qed.

(** ** What a task may do to the frames of an existing socket *)

Lemma grows_quietly_same_sockets (st st' : Bridge) :
  sockets st' = sockets st -> grows_quietly st st'.
Proof.
  intros E ws sock H. exists (readyState sock), []. split; [|constructor].
  rewrite E, H, app_nil_r. destruct sock; reflexivity.
Qed.

Lemma grows_quietly_trans (st1 st2 st3 : Bridge) :
  grows_quietly st1 st2 -> grows_quietly st2 st3 -> grows_quietly st1 st3.
Proof.
  intros H12 H23 ws sock H.
  destruct (H12 ws sock H) as (rs & more & H2 & Hq).
  destruct (H23 ws _ H2) as (rs' & more' & H3 & Hq').
  exists rs', (more ++ more'). simpl in H3. rewrite <- app_assoc in H3.
  split; [exact H3 | apply Forall_app; split; assumption].
Qed.

Lemma quiet_ret {A} (a : A) : quiet (ret a).
Proof. intros st. exists a, st. split; [reflexivity|]. now apply grows_quietly_same_sockets. Qed.

Lemma quiet_gets {A} (f : Bridge -> A) : quiet (gets f).
Proof. intros st. exists (f st), st. split; [reflexivity|]. now apply grows_quietly_same_sockets. Qed.

Lemma quiet_modify (f : Bridge -> Bridge) :
  (forall st, sockets (f st) = sockets st) -> quiet (modify f).
Proof.
  intros Hf st. exists tt, (f st). split; [reflexivity|].
  apply grows_quietly_same_sockets, Hf.
Qed.

Lemma quiet_bind {A B} (m : M A) (k : A -> M B) :
  quiet m -> (forall a, quiet (k a)) -> quiet (bind m k).
Proof.
  intros Hm Hk st. destruct (Hm st) as (a & st1 & E1 & G1).
  destruct (Hk a st1) as (b & st2 & E2 & G2).
  exists b, st2. split; [rewrite (bind_run _ _ _ _ _ E1); exact E2|].
  eapply grows_quietly_trans; eauto.
Qed.

Lemma quiet_broadcast (payload : Payload) :
  str_eqb (event payload) (js "status") = false -> quiet (broadcast payload).
Proof.
  intros Hev st. eexists tt, _. split; [apply broadcast_run|].
  intros ws sock H. simpl.
  rewrite (deliver_all_lookup _ _ _ _ _ H).
  eexists _, _. split; [reflexivity|].
  apply Forall_replicate. exact Hev.
Qed.

Lemma quiet_socket_moves (ws : nat) (rs : N) : quiet (socket_moves ws rs).
Proof.
  intros st. unfold socket_moves. cbv [bind gets ret set_sockets modify].
  destruct (sockets st !! ws) as [sock|] eqn:E; rewrite ?E.
  - eexists tt, _. split; [reflexivity|]. intros i socki Hi. simpl.
    destruct (decide (i = ws)) as [->|Hne].
    + rewrite list_lookup_insert_eq by (eapply lookup_lt_Some; eauto).
      exists rs, []. rewrite app_nil_r. split; [congruence | constructor].
    + rewrite list_lookup_insert_ne by congruence.
      exists (readyState socki), []. rewrite Hi, app_nil_r.
      split; [destruct socki; reflexivity | constructor].
  - exists tt, st. split; [reflexivity|]. now apply grows_quietly_same_sockets.
Qed.

Create HintDb quiet.
#[local] Hint Resolve quiet_ret quiet_gets quiet_socket_moves : quiet.

Ltac quiet_step :=
  first
    [ apply quiet_broadcast; reflexivity
    | apply quiet_modify; intros ?; reflexivity
    | solve [auto with quiet]
    | apply quiet_bind; [|intros ?] ].

Lemma quiet_createClient : quiet createClient.
Proof. unfold createClient, set_waClient, set_clientStatus. repeat quiet_step. Qed.

Lemma quiet_on_reconnect_timer : quiet on_reconnect_timer.
Proof.
  unfold on_reconnect_timer. apply quiet_bind; [auto with quiet|].
  intros [|t ts]; [auto with quiet|].
  apply quiet_bind; [unfold set_timers; quiet_step | intros _; apply quiet_createClient].
Qed.

(** ** Registration of a subscriber *)

Lemma lookup_new_socket (s : list WebSocket) (sock : WebSocket) :
  (s ++ [sock]) !! length s = Some sock.
Proof. rewrite lookup_app_r by lia. rewrite Nat.sub_diag. reflexivity. Qed.

Lemma insert_new_socket (s : list WebSocket) (sock sock' : WebSocket) :
  <[length s := sock']> (s ++ [sock]) = s ++ [sock'].
Proof.
  rewrite insert_app_r_alt by lia. rewrite Nat.sub_diag. reflexivity.
Qed.

Lemma connection_accepted (cfg : Config) (token : option jsstring) (st : Bridge) :
  token_ok cfg token = true ->
  step cfg (WsConnection token) st
  = Return tt
      (with_sockets
         (sockets st ++ [{| readyState := 1;
                            sent := [JSON_stringify (status_payload (clientStatus st))] |}])
         (with_wsClients (Set_add (length (sockets st)) (wsClients st)) st)).
Proof.
  intros Hok. unfold token_ok in Hok. unfold step, accept_socket, on_connection.
  cbv [bind gets ret set_sockets set_wsClients modify]. rewrite Hok. simpl.
  unfold ws_send. cbv [bind gets ret set_sockets modify throw]. simpl.
  rewrite lookup_new_socket. simpl. rewrite insert_new_socket. reflexivity.
Qed.

Lemma connection_refused (cfg : Config) (token : option jsstring) (st : Bridge) :
  token_ok cfg token = false ->
  step cfg (WsConnection token) st
  = Return tt (with_sockets (sockets st ++ [{| readyState := 2; sent := [] |}]) st).
Proof.
  intros Hok. unfold token_ok in Hok. unfold step, accept_socket, on_connection.
  cbv [bind gets ret set_sockets set_wsClients modify]. rewrite Hok. simpl.
  unfold ws_close. cbv [bind gets ret set_sockets modify]. simpl.
  rewrite lookup_new_socket. simpl. rewrite insert_new_socket. reflexivity.
Qed.

Lemma grows_quietly_new_socket (st st' : Bridge) (sock : WebSocket) :
  sockets st' = sockets st ++ [sock] -> grows_quietly st st'.
Proof.
  intros E ws s H. exists (readyState s), []. split; [|constructor].
  rewrite E, lookup_app_l by (eapply lookup_lt_Some; eauto).
  rewrite H, app_nil_r. destruct s; reflexivity.
Qed.

Lemma quiet_connection (cfg : Config) (token : option jsstring) :
  quiet (step cfg (WsConnection token)).
Proof.
  intros st. destruct (token_ok cfg token) eqn:Hok.
  - eexists tt, _. split; [apply connection_accepted, Hok|].
    eapply grows_quietly_new_socket. reflexivity.
  - eexists tt, _. split; [apply connection_refused, Hok|].
    eapply grows_quietly_new_socket. reflexivity.
Qed.

(** Every task returns and extends the state quietly. *)
Lemma quiet_step_of (cfg : Config) (ev : Event) : quiet (step cfg ev).
Proof.
  destruct ev; try apply quiet_connection; unfold step;
    try apply quiet_createClient; try apply quiet_on_reconnect_timer;
    try apply quiet_socket_moves.
  - unfold on_qr_begin, set_clientStatus. quiet_step.
  - unfold on_qr_resume, set_currentQrDataUrl. repeat quiet_step.
  - unfold on_authenticated, set_clientStatus, set_currentQrDataUrl. repeat quiet_step.
  - unfold on_auth_failure, set_clientStatus. repeat quiet_step.
  - unfold on_ready, set_clientStatus. repeat quiet_step.
  - unfold on_disconnected, set_clientStatus, set_timers. repeat quiet_step.
  - unfold on_message. quiet_step.
  - unfold on_message_create. destruct (msg_fromMe msg); quiet_step.
  - unfold on_message_ack. quiet_step.
  - unfold on_change_state. quiet_step.
  - unfold on_initialize_rejected, set_clientStatus. quiet_step.
  - unfold on_ws_close, set_wsClients. repeat quiet_step.
  - unfold on_ws_error, set_wsClients. repeat quiet_step.
Qed.

Lemma quiet_run (cfg : Config) (evs : list Event) : quiet (run cfg evs).
Proof.
  induction evs as [|ev evs IH]; simpl.
  - apply quiet_ret.
  - apply quiet_bind; [apply quiet_step_of | intros _; exact IH].
Qed.

Lemma run_app (cfg : Config) (evs evs' : list Event) (st : Bridge) :
  run cfg (evs ++ evs') st = bind (run cfg evs) (fun _ => run cfg evs') st.
Proof.
  revert st. induction evs as [|ev evs IH]; intros st; simpl.
  - reflexivity.
  - unfold bind in *. destruct (step cfg ev st) as [[] st1|e st1]; [|reflexivity].
    apply IH.
Qed.

(** ** The subscriber set has no duplicates *)

Lemma Set_add_NoDup (x : nat) (l : list nat) : NoDup l -> NoDup (Set_add x l).
Proof.
  intros H. unfold Set_add. case_bool_decide as Hin; [exact H|].
  apply NoDup_app. repeat split; [exact H| |apply NoDup_singleton].
  intros y Hy Hy'. apply list_elem_of_singleton in Hy'. congruence.
Qed.

Lemma Set_delete_NoDup (x : nat) (l : list nat) : NoDup l -> NoDup (Set_delete x l).
Proof.
  intros H. unfold Set_delete. apply NoDup_ListNoDup, List.NoDup_filter, NoDup_ListNoDup, H.
Qed.

(** Every task keeps [wsClients] free of duplicates, so every state the
    event loop reaches from [initial] has a subscriber set that is a set. *)
Lemma step_NoDup (cfg : Config) (ev : Event) (st st' : Bridge) :
  NoDup (wsClients st) -> step cfg ev st = Return tt st' -> NoDup (wsClients st').
Proof.
  intros Hnd.
  destruct ev;
    try (cbv [step createClient on_qr_begin on_qr_resume on_authenticated
                on_auth_failure on_ready on_disconnected on_message on_message_ack
                on_change_state on_initialize_rejected on_ws_close on_ws_error
                bind gets ret modify set_clientStatus set_currentQrDataUrl
                set_waClient set_wsClients set_timers];
         rewrite ?broadcast_run; intros E; injection E as <-; simpl;
         first [exact Hnd | apply Set_delete_NoDup, Hnd]).
  - unfold step, on_message_create. destruct (msg_fromMe msg).
    + rewrite broadcast_run. intros E. injection E as <-. exact Hnd.
    + intros E. injection E as <-. exact Hnd.
  - unfold step, on_reconnect_timer. cbv [bind gets]. destruct (timers st).
    + intros E. injection E as <-. exact Hnd.
    + intros E. injection E as <-. exact Hnd.
  - destruct (token_ok cfg token) eqn:Hok.
    + rewrite (connection_accepted _ _ _ Hok). intros E. injection E as <-.
      apply Set_add_NoDup, Hnd.
    + rewrite (connection_refused _ _ _ Hok). intros E. injection E as <-. exact Hnd.
  - unfold step, socket_moves. cbv [bind gets ret set_sockets modify].
    destruct (sockets st !! ws); intros E; injection E as <-; exact Hnd.
  - unfold step, socket_moves. cbv [bind gets ret set_sockets set_wsClients modify on_ws_close].
    destruct (sockets st !! ws); intros E; injection E as <-;
      apply Set_delete_NoDup, Hnd.
Qed.

Lemma run_NoDup (cfg : Config) (evs : list Event) (st st' : Bridge) :
  NoDup (wsClients st) -> run cfg evs st = Return tt st' -> NoDup (wsClients st').
Proof.
  revert st. induction evs as [|ev evs IH]; intros st Hnd; simpl.
  - intros E. injection E as <-. exact Hnd.
  - unfold bind. destruct (step cfg ev st) as [[] st1|e st1] eqn:E1; [|discriminate].
    apply IH. eapply step_NoDup; eauto.
Qed.

Lemma reachable_NoDup (cfg : Config) (evs : list Event) (st : Bridge) :
  run cfg evs initial = Return tt st -> NoDup (wsClients st).
Proof. apply run_NoDup. constructor. Qed.

(** ** Gateway facts *)

Lemma prop_body_or_empty (b : value) (k : string) :
  prop (js_or b (JObj [])) k = prop b k.
Proof.
  unfold js_or. destruct (truthy b) eqn:E; [reflexivity|].
  destruct b; try reflexivity; simpl in E; discriminate.
Qed.

Lemma API_TOKEN_truthy (cfg : Config) : truthy (API_TOKEN cfg) = true.
Proof.
  unfold API_TOKEN, js_or. destruct (truthy (api_token cfg)) eqn:E; [exact E | reflexivity].
Qed.

Lemma strict_eq_str_iff (x : jsstring) (y : value) :
  strict_eq_str x y = true <-> y = JStr x.
Proof.
  destruct y; simpl; try (split; [discriminate | intros H; discriminate H]).
  rewrite str_eqb_eq. split; [intros ->; reflexivity | intros H; injection H; auto].
Qed.

Lemma auth_next_iff (cfg : Config) (req : Request) :
  auth cfg req = None
  <-> API_TOKEN cfg = JStr (presented_token (default [] (authorization req))).
Proof.
  unfold auth. rewrite <- trim_replace_bearer, <- strict_eq_str_iff.
  replace (match authorization req with Some h => h | None => [] end)
    with (default [] (authorization req)) by (destruct (authorization req); reflexivity).
  destruct (strict_eq_str _ _); simpl; split; congruence.
Qed.

Lemma auth_cases (cfg : Config) (req : Request) :
  auth cfg req = None
  \/ auth cfg req = Some (error_response 401 (JStr (js "Unauthorized"))).
Proof. unfold auth. destruct (negb _); auto. Qed.

Lemma chatId_of_string (to : jsstring) :
  chatId_of (JStr to)
  = inr (JStr (if bool_decide (64 ∈ to) then to
               else List.filter is_digit to ++ js "@c.us")).
Proof.
  unfold chatId_of, strip_non_digits. change (js "@") with [64].
  destruct (includes to [64]) eqn:E.
  - apply includes_code_unit in E. rewrite bool_decide_eq_true_2 by exact E. reflexivity.
  - rewrite bool_decide_eq_false_2; [reflexivity|].
    intros H. apply includes_code_unit in H. congruence.
Qed.

Lemma truthy_nonempty (s : jsstring) : s <> [] -> truthy (JStr s) = true.
Proof. destruct s; [congruence | reflexivity]. Qed.

Lemma is_READY_iff (s : ConnectionStatus) : is_READY s = true <-> s = READY.
Proof. destruct s; simpl; split; congruence. Qed.

Section GatewayFacts.

Variable MessageMedia_fromUrl : value -> value -> Result value.
Variable waClient_sendMessage : value -> value -> value -> Result SentMessage.

Lemma api_send_not_ready (cfg : Config) (st : Bridge) (req : Request) :
  clientStatus st <> READY ->
  api_send MessageMedia_fromUrl waClient_sendMessage cfg st req
  = {| reply := Responded (error_response 503
                  (JStr (not_ready_text (edition cfg) ++ status_name (clientStatus st))));
       client_calls := [] |}.
Proof.
  intros H. unfold api_send.
  destruct (is_READY (clientStatus st)) eqn:E; [apply is_READY_iff in E; congruence|].
  reflexivity.
Qed.

(** With a string destination and neither a truthy [message] nor a
    truthy [media_url], the handler answers 400 and calls nothing. *)
Lemma api_send_nothing_to_send (cfg : Config) (st : Bridge) (req : Request)
      (to : jsstring) :
  clientStatus st = READY ->
  prop (body req) "to" = JStr to -> to <> [] ->
  truthy (prop (body req) "message") = false ->
  truthy (prop (body req) "media_url") = false ->
  api_send MessageMedia_fromUrl waClient_sendMessage cfg st req
  = {| reply := Responded (error_response 400
                  (JStr (message_required_text (edition cfg))));
       client_calls := [] |}.
Proof.
  intros Hs Hto Hne Hm Hu. unfold api_send. cbv zeta.
  rewrite Hs, !prop_body_or_empty, Hto, Hm, Hu, (truthy_nonempty to Hne).
  reflexivity.
Qed.

Lemma api_send_text (cfg : Config) (st : Bridge) (req : Request)
      (to message : jsstring) :
  clientStatus st = READY ->
  prop (body req) "to" = JStr to -> to <> [] ->
  prop (body req) "message" = JStr message -> message <> [] ->
  truthy (prop (body req) "media_url") = false ->
  client_calls (api_send MessageMedia_fromUrl waClient_sendMessage cfg st req)
  = [Call_sendMessage
       (JStr (if bool_decide (64 ∈ to) then to
              else List.filter is_digit to ++ js "@c.us"))
       (JStr message) JUndefined].
Proof.
  intros Hs Hto Hne Hm Hme Hu. unfold api_send. cbv zeta.
  rewrite Hs, !prop_body_or_empty, Hto, Hm, Hu,
    (truthy_nonempty to Hne), (truthy_nonempty message Hme), chatId_of_string.
  reflexivity.
Qed.

End GatewayFacts.

Lemma Set_add_elem (x : nat) (l : list nat) : x ∈ Set_add x l.
Proof.
  unfold Set_add. case_bool_decide as H; [exact H|].
  apply elem_of_app. right. apply list_elem_of_singleton. reflexivity.
Qed.

(** A truthy destination that is not a string has no [includes] to call:
    the handler throws outside its [try], writes no response and calls
    nothing. *)
Example send_numeric_destination_unhandled :
  api_send sample_fromUrl sample_sendMessage sample_cfg ready_state
    (bearer "secret" (JObj [(js "to", JNum 15551234567);
                            (js "message", JStr (js "hello"))]))
  = {| reply := Unhandled (TypeError (js "to.includes is not a function"));
       client_calls := [] |}.
Proof. reflexivity. Qed.

(** Any white space may separate the scheme word from the token, as in
    the regular expression: here a tab. *)
Example auth_accepts_tab_separator :
  auth sample_cfg {| authorization := Some (js "Bearer" ++ [9] ++ js "secret");
                     body := JUndefined |}
  = None.
Proof. reflexivity. Qed.

(** ** The claims *)

(** C1 (as amended). For every payload and every state whose subscriber
    set is a set, [broadcast] returns without raising; it writes the frame
    once to each registered socket that is OPEN and nothing to any other
    socket, and it leaves the subscriber set as it was: a registered socket
    that is not OPEN is skipped, not removed. *)
Theorem broadcast_returns_and_keeps_subscribers (payload : Payload) (st : Bridge) :
  NoDup (wsClients st) ->
  exists st',
    broadcast payload st = Return tt st' /\
    wsClients st' = wsClients st /\
    length (sockets st') = length (sockets st) /\
    forall ws sock, sockets st !! ws = Some sock ->
      sockets st' !! ws
      = Some {| readyState := readyState sock;
                sent := sent sock ++
                        (if (readyState sock =? 1) && bool_decide (ws ∈ wsClients st)
                         then [JSON_stringify payload] else []) |}.
Proof.
  intros Hnd. eexists. split; [apply broadcast_run|].
  split; [reflexivity|]. split; [apply deliver_all_length|].
  intros ws sock H. simpl. rewrite (deliver_all_lookup _ _ _ _ _ H).
  do 2 f_equal. destruct (readyState sock =? 1); simpl; [|reflexivity].
  case_bool_decide as Hin.
  - rewrite (occurrences_NoDup _ _ Hnd Hin). reflexivity.
  - rewrite (occurrences_notin _ _ Hin). reflexivity.
Qed.

Lemma broadcast_returns_and_keeps_subscribers_witness :
  NoDup (wsClients mixed_sockets_state) /\
  exists st',
    broadcast {| event := js "ready"; data := JNull |} mixed_sockets_state = Return tt st' /\
    wsClients st' = wsClients mixed_sockets_state /\
    length (sockets st') = length (sockets mixed_sockets_state) /\
    forall ws sock, sockets mixed_sockets_state !! ws = Some sock ->
      sockets st' !! ws
      = Some {| readyState := readyState sock;
                sent := sent sock ++
                        (if (readyState sock =? 1)
                            && bool_decide (ws ∈ wsClients mixed_sockets_state)
                         then [JSON_stringify {| event := js "ready"; data := JNull |}]
                         else []) |}.
Proof.
  assert (Hnd : NoDup (wsClients mixed_sockets_state)).
  { apply NoDup_cons_2; [|apply NoDup_singleton].
    intros H. apply list_elem_of_singleton in H. discriminate H. }
  split; [exact Hnd|].
  exact (broadcast_returns_and_keeps_subscribers _ mixed_sockets_state Hnd).
Defined.

(** C1, against the claim as stated: a registered socket that is CLOSED
    when [broadcast] runs is still registered when it returns. *)
Lemma broadcast_keeps_closed_subscriber :
  wsClients stale_subscriber_state = [0%nat] /\
  readyState <$> sockets stale_subscriber_state !! 0%nat = Some 3 /\
  exists st',
    broadcast {| event := js "ready"; data := JNull |} stale_subscriber_state
    = Return tt st' /\
    0%nat ∈ wsClients st'.
Proof.
  split; [reflexivity|]. split; [reflexivity|].
  eexists. split; [apply broadcast_run|]. simpl. apply list_elem_of_here.
Qed.

(** C2 (as amended). After every sequence of events, the transition to
    AUTHENTICATED sets the stored pairing artifact to null, and the
    transition to READY leaves the stored artifact as it was. *)
Theorem authenticated_clears_qr_ready_keeps_it
        (cfg : Config) (evs : list Event) (info : value) :
  exists st,
    run cfg evs initial = Return tt st /\
    (exists st',
        run cfg (evs ++ [ClientAuthenticated]) initial = Return tt st' /\
        clientStatus st' = AUTHENTICATED /\
        currentQrDataUrl st' = None) /\
    (exists st',
        run cfg (evs ++ [ClientReady info]) initial = Return tt st' /\
        clientStatus st' = READY /\
        currentQrDataUrl st' = currentQrDataUrl st).
Proof.
  destruct (quiet_run cfg evs initial) as ([] & st & Hrun & _).
  exists st. split; [exact Hrun|]. split.
  - eexists. rewrite run_app, (bind_run _ _ _ _ _ Hrun). simpl.
    unfold bind. rewrite on_authenticated_run. simpl. auto.
  - eexists. rewrite run_app, (bind_run _ _ _ _ _ Hrun). simpl.
    unfold bind. rewrite on_ready_run. simpl. auto.
Qed.

(** C2, against the claim as stated: a QR image stored while pairing is
    still stored after the transition to READY, and likewise after the
    transition to DISCONNECTED. *)
Lemma stored_qr_survives_ready_and_disconnect :
  let pairing := [ServerListening; ClientQr (js "2@kX9"); QrEncoded (js "data:image/png;base64,iVBOR")] in
  let st := state_of (run sample_cfg (pairing ++ [ClientReady JNull]) initial) in
  let st' := state_of (run sample_cfg (pairing ++ [ClientDisconnected JNull]) initial) in
  (clientStatus st = READY /\
   currentQrDataUrl st = Some (js "data:image/png;base64,iVBOR")) /\
  (clientStatus st' = DISCONNECTED /\
   currentQrDataUrl st' = Some (js "data:image/png;base64,iVBOR")).
Proof. repeat split; reflexivity. Qed.

(** C3. What the code does when [initialize()] rejects: the rejection is
    caught and the status becomes DISCONNECTED, but no timer is set, no
    client is constructed and nothing is published, whereas the
    [disconnected] signal sets the 5000 ms reconnect timer whose callback
    runs [createClient] again. *)
Theorem initialize_rejection_schedules_no_reconnect
        (cfg : Config) (evs : list Event) (err reason : value) :
  exists st,
    run cfg evs initial = Return tt st /\
    (exists st',
        run cfg (evs ++ [InitializeRejected err]) initial = Return tt st' /\
        clientStatus st' = DISCONNECTED /\
        timers st' = timers st /\
        waClient st' = waClient st /\
        sockets st' = sockets st) /\
    (exists st',
        run cfg (evs ++ [ClientDisconnected reason]) initial = Return tt st' /\
        clientStatus st' = DISCONNECTED /\
        timers st' = timers st ++ [5000]) /\
    (exists st',
        run cfg (evs ++ [ClientDisconnected reason; ReconnectTimerFired]) initial
        = Return tt st' /\
        clientStatus st' = INITIALIZING).
Proof.
  destruct (quiet_run cfg evs initial) as ([] & st & Hrun & _).
  exists st. split; [exact Hrun|]. repeat split.
  - eexists. rewrite run_app, (bind_run _ _ _ _ _ Hrun). simpl.
    unfold bind. rewrite on_initialize_rejected_run. simpl. auto.
  - eexists. rewrite run_app, (bind_run _ _ _ _ _ Hrun). simpl.
    unfold bind. rewrite on_disconnected_run. simpl. auto.
  - destruct (quiet_run cfg [ClientDisconnected reason; ReconnectTimerFired] st)
      as ([] & st' & Hrun' & _).
    exists st'. rewrite run_app, (bind_run _ _ _ _ _ Hrun).
    split; [exact Hrun'|]. revert Hrun'. simpl.
    unfold bind. rewrite on_disconnected_run.
    unfold on_reconnect_timer. cbv [bind gets]. simpl.
    destruct (timers st); simpl; intros E; injection E as <-; reflexivity.
Qed.

(** The server starts and [initialize()] rejects: the bridge is left
    DISCONNECTED with no timer pending. *)
Example initialize_rejection_leaves_no_timer :
  run sample_cfg [ServerListening; InitializeRejected (JStr (js "Failed to launch the browser process"))]
      initial
  = Return tt {| clientStatus := DISCONNECTED; currentQrDataUrl := None;
                 waClient := Some 1%nat; wsClients := []; sockets := []; timers := [] |}.
Proof. reflexivity. Qed.

(** The status strings are pairwise different: the string carried names
    one status. *)
Lemma status_name_inj (s s' : ConnectionStatus) :
  status_name s = status_name s' -> s = s'.
Proof.
  destruct s, s'; intros H; try reflexivity; vm_compute in H; discriminate H.
Qed.

Lemma filter_quiet_frames (more : list Frame) :
  Forall (fun f => is_status_frame f = false) more ->
  List.filter is_status_frame more = [].
Proof.
  induction 1 as [|f more Hf _ IH]; simpl; [reflexivity|]. rewrite Hf. exact IH.
Qed.

(** C4. A connection that presents the configured token is registered
    and, in the same task, written one frame: the [status] event whose
    data carries the name of the status current at that moment, a name
    that belongs to no other status. Whatever events follow, that frame
    stays the first frame of the socket and no later frame is a [status]
    event, so the socket holds exactly one [status] frame. *)
Theorem subscriber_first_frame_is_status
        (cfg : Config) (st : Bridge) (token : jsstring) (evs : list Event) :
  API_TOKEN cfg = JStr token ->
  let ws := length (sockets st) in
  let hello :=
    JSON_stringify
      {| event := js "status";
         data := JObj [(js "status", JStr (status_name (clientStatus st)))] |} in
  is_status_frame hello = true /\
  prop (data (frame_payload hello)) "status" = JStr (status_name (clientStatus st)) /\
  (forall s, status_name s = status_name (clientStatus st) -> s = clientStatus st) /\
  exists st1 st2 rs more,
    step cfg (WsConnection (Some token)) st = Return tt st1 /\
    ws ∈ wsClients st1 /\
    sockets st1 !! ws = Some {| readyState := 1; sent := [hello] |} /\
    run cfg evs st1 = Return tt st2 /\
    sockets st2 !! ws = Some {| readyState := rs; sent := hello :: more |} /\
    Forall (fun f => is_status_frame f = false) more /\
    length (List.filter is_status_frame (hello :: more)) = 1%nat.
Proof.
  intros Htok ws hello.
  split; [reflexivity|]. split; [reflexivity|].
  split; [intros s; apply status_name_inj|].
  assert (Hok : token_ok cfg (Some token) = true).
  { simpl. apply strict_eq_str_iff. exact Htok. }
  pose proof (connection_accepted cfg (Some token) st Hok) as H1.
  match type of H1 with _ = Return tt ?s => set (st1 := s) in * end.
  assert (Hsock : sockets st1 !! ws = Some {| readyState := 1; sent := [hello] |}).
  { apply lookup_new_socket. }
  destruct (quiet_run cfg evs st1) as ([] & st2 & H2 & Hq).
  destruct (Hq ws _ Hsock) as (rs & more & Hlk & Hmore).
  exists st1, st2, rs, more. repeat split; try assumption.
  - apply Set_add_elem.
  - cbn [List.filter]. change (is_status_frame hello) with true. cbv iota.
    rewrite (filter_quiet_frames more Hmore). reflexivity.
Qed.

Lemma subscriber_first_frame_is_status_witness :
  API_TOKEN sample_cfg = JStr (js "secret") /\
  let hello :=
    JSON_stringify {| event := js "status";
                      data := JObj [(js "status", JStr (js "DISCONNECTED"))] |} in
  is_status_frame hello = true /\
  exists st1 st2 rs more,
    step sample_cfg (WsConnection (Some (js "secret"))) initial = Return tt st1 /\
    0%nat ∈ wsClients st1 /\
    sockets st1 !! 0%nat = Some {| readyState := 1; sent := [hello] |} /\
    run sample_cfg
        [ServerListening; ClientQr (js "2@kX9"); ClientAuthenticated; ClientReady JNull] st1
    = Return tt st2 /\
    sockets st2 !! 0%nat = Some {| readyState := rs; sent := hello :: more |} /\
    Forall (fun f => is_status_frame f = false) more /\
    length (List.filter is_status_frame (hello :: more)) = 1%nat.
Proof.
  split; [reflexivity|].
  destruct (subscriber_first_frame_is_status sample_cfg initial (js "secret")
              [ServerListening; ClientQr (js "2@kX9"); ClientAuthenticated;
               ClientReady JNull]
              eq_refl) as (Hstatus & _ & _ & Hrest).
  split; [exact Hstatus | exact Hrest].
Defined.

(** C5. A string destination containing "@" is the chat identifier as it
    is; one without "@" is reduced to its digits and suffixed with
    "@c.us"; so "15551234567" resolves to "15551234567@c.us" and
    "123@g.us" to itself. A text send passes exactly this identifier to
    the external client. *)
Theorem send_resolves_destination
        (fromUrl : value -> value -> Result value)
        (sendMessage : value -> value -> value -> Result SentMessage)
        (cfg : Config) (st : Bridge) (req : Request) (to message : jsstring) :
  clientStatus st = READY ->
  prop (body req) "to" = JStr to -> to <> [] ->
  prop (body req) "message" = JStr message -> message <> [] ->
  truthy (prop (body req) "media_url") = false ->
  let chatId := if bool_decide (64 ∈ to) then to
                else List.filter is_digit to ++ js "@c.us" in
  chatId_of (JStr to) = inr (JStr chatId)
  /\ client_calls (api_send fromUrl sendMessage cfg st req)
     = [Call_sendMessage (JStr chatId) (JStr message) JUndefined]
  /\ chatId_of (JStr (js "15551234567")) = inr (JStr (js "15551234567@c.us"))
  /\ chatId_of (JStr (js "123@g.us")) = inr (JStr (js "123@g.us")).
Proof.
  intros Hs Hto Hne Hm Hme Hu chatId. split; [apply chatId_of_string|].
  split; [eapply api_send_text; eassumption|].
  split; reflexivity.
Qed.

Lemma send_resolves_destination_witness :
  client_calls
    (api_send sample_fromUrl sample_sendMessage sample_cfg ready_state
       (bearer "secret" (JObj [(js "to", JStr (js "+1 (555) 123-4567"));
                               (js "message", JStr (js "hello"))])))
  = [Call_sendMessage (JStr (js "15551234567@c.us")) (JStr (js "hello")) JUndefined].
Proof.
  refine (proj1 (proj2 (send_resolves_destination sample_fromUrl sample_sendMessage
            sample_cfg ready_state
            (bearer "secret" (JObj [(js "to", JStr (js "+1 (555) 123-4567"));
                                    (js "message", JStr (js "hello"))]))
            (js "+1 (555) 123-4567") (js "hello") _ _ _ _ _ _)));
    first [reflexivity | discriminate].
Defined.

(** C6. Whatever the body, while the status is not READY the send
    operation answers 503 with the not-ready error, and the external
    client is not called. *)
Theorem send_not_ready_503
        (fromUrl : value -> value -> Result value)
        (sendMessage : value -> value -> value -> Result SentMessage)
        (cfg : Config) (st : Bridge) (req : Request) :
  auth cfg req = None ->
  clientStatus st <> READY ->
  post_api_send fromUrl sendMessage cfg st req
  = {| reply := Responded
                  {| status_code := 503;
                     content := Json (JObj [(js "error",
                                  JStr (not_ready_text (edition cfg)
                                        ++ status_name (clientStatus st)))]) |};
       client_calls := [] |}.
Proof.
  intros Ha Hs. unfold post_api_send. rewrite Ha.
  apply api_send_not_ready, Hs.
Qed.

Lemma send_not_ready_503_witness :
  post_api_send sample_fromUrl sample_sendMessage sample_cfg
    (with_clientStatus QR_READY initial)
    (bearer "secret" (JObj [(js "message", JNum 7)]))
  = {| reply := Responded
                  {| status_code := 503;
                     content := Json (JObj [(js "error",
                                  JStr (js "WhatsApp not ready. Status: QR_READY"))]) |};
       client_calls := [] |}.
Proof.
  refine (send_not_ready_503 sample_fromUrl sample_sendMessage sample_cfg
            (with_clientStatus QR_READY initial)
            (bearer "secret" (JObj [(js "message", JNum 7)])) _ _);
    first [reflexivity | discriminate].
Defined.

(** C7. What the send operation does, with the status READY, when both
    [message] and [media_url] are absent and a destination is supplied
    (a truthy [to]). For a destination that is a string, or an array
    holding "@", it answers 400 with the validation error and sends
    nothing, as the claim says. For any other destination (a JSON number,
    [true], an object, an array without "@") the normalisation
    [to.includes("@") ? to : to.replace(...)] throws a TypeError outside
    the [try] before the validation is reached: no response is written,
    and nothing is sent. *)
Theorem send_validation_misses_non_string_destination
        (fromUrl : value -> value -> Result value)
        (sendMessage : value -> value -> value -> Result SentMessage)
        (cfg : Config) (st : Bridge) (req : Request) :
  auth cfg req = None ->
  clientStatus st = READY ->
  truthy (prop (body req) "to") = true ->
  prop (body req) "message" = JUndefined ->
  prop (body req) "media_url" = JUndefined ->
  let validation_error :=
    {| reply := Responded
                  {| status_code := 400;
                     content := Json (JObj [(js "error",
                                  JStr (message_required_text (edition cfg)))]) |};
       client_calls := [] |} in
  let thrown (what : jsstring) :=
    {| reply := Unhandled (TypeError what); client_calls := [] |} in
  post_api_send fromUrl sendMessage cfg st req
  = match prop (body req) "to" with
    | JStr _ => validation_error
    | JArr items =>
        if existsb (strict_eq_str (js "@")) items then validation_error
        else thrown (js "to.replace is not a function")
    | _ => thrown (js "to.includes is not a function")
    end.
Proof.
  intros Ha Hs Ht Hm Hu validation_error thrown.
  unfold post_api_send, api_send. cbv zeta.
  rewrite Ha, Hs, !prop_body_or_empty, Ht, Hm, Hu.
  destruct (prop (body req) "to") as [| |b|n|s|items|fields]; try reflexivity.
  simpl. destruct (existsb (strict_eq_str (js "@")) items); reflexivity.
Qed.

Lemma send_validation_misses_non_string_destination_witness :
  post_api_send sample_fromUrl sample_sendMessage sample_cfg ready_with_client
    (bearer "secret" (JObj [(js "to", JNum 15551234567)]))
  = {| reply := Unhandled (TypeError (js "to.includes is not a function"));
       client_calls := [] |}.
Proof.
  refine (send_validation_misses_non_string_destination sample_fromUrl sample_sendMessage
            sample_cfg ready_with_client
            (bearer "secret" (JObj [(js "to", JNum 15551234567)])) _ _ _ _ _);
    reflexivity.
Defined.



(** C9. [auth] lets a request through exactly when the configured token
    equals the token its Authorization header presents: the header (empty
    when missing) with one optional leading "Bearer" word and the white
    space after it stripped case-insensitively, then trimmed. Every other
    request, a missing header included, is answered 401 and the route
    handler does not run; a header that is the bare token is accepted. *)
Theorem auth_accepts_presented_token
        (fromUrl : value -> value -> Result value)
        (sendMessage : value -> value -> value -> Result SentMessage)
        (cfg : Config) (st : Bridge) (req : Request) :
  let header := default [] (authorization req) in
  let unauthorized := error_response 401 (JStr (js "Unauthorized")) in
  (auth cfg req = None <-> API_TOKEN cfg = JStr (presented_token header))
  /\ (auth cfg req <> None ->
      auth cfg req = Some unauthorized
      /\ post_api_send fromUrl sendMessage cfg st req
         = {| reply := Responded unauthorized; client_calls := [] |}
      /\ get_api_qr cfg st req = unauthorized)
  /\ (authorization req = None -> auth cfg req = Some unauthorized)
  /\ (API_TOKEN cfg = JStr header -> trim header = header ->
      strip_scheme header = header -> auth cfg req = None).
Proof.
  intros header unauthorized. split; [apply auth_next_iff|]. split; [|split].
  - intros Hno. destruct (auth_cases cfg req) as [H|H]; [congruence|].
    unfold post_api_send, get_api_qr. rewrite H. auto.
  - intros Hmiss. destruct (auth_cases cfg req) as [H|H]; [|exact H].
    apply auth_next_iff in H. rewrite Hmiss in H. simpl in H.
    pose proof (API_TOKEN_truthy cfg) as Ht. rewrite H in Ht. discriminate Ht.
  - intros Htok Htrim Hstrip. apply auth_next_iff. fold header.
    unfold presented_token. rewrite Hstrip, Htrim. exact Htok.
Qed.

Lemma auth_accepts_presented_token_witness :
  auth sample_cfg {| authorization := Some (js "secret"); body := JUndefined |} = None
  /\ auth sample_cfg {| authorization := Some (js "bEARER   secret "); body := JUndefined |}
     = None
  /\ auth sample_cfg {| authorization := None; body := JUndefined |}
     = Some (error_response 401 (JStr (js "Unauthorized"))).
Proof.
  split; [|split].
  - refine (proj2 (proj2 (proj2 (auth_accepts_presented_token
              sample_fromUrl sample_sendMessage sample_cfg initial
              {| authorization := Some (js "secret"); body := JUndefined |}))) _ _ _);
      reflexivity.
  - refine (proj2 (proj1 (auth_accepts_presented_token
              sample_fromUrl sample_sendMessage sample_cfg initial
              {| authorization := Some (js "bEARER   secret "); body := JUndefined |})) _);
      reflexivity.
  - refine (proj1 (proj2 (proj2 (auth_accepts_presented_token
              sample_fromUrl sample_sendMessage sample_cfg initial
              {| authorization := None; body := JUndefined |}))) _);
      reflexivity.
Defined.

(** C10. In the payload built for a message, [is_group] is a boolean
    that is true exactly when [from] ends with "@g.us"; it depends on no
    other field of the message, so for a message of this session
    ([from_me] true) to a group it follows the sender, not the group the
    message goes to. *)
Theorem is_group_from_sender (msg : Message) (contact : Result Contact) :
  let payload := buildMessagePayload msg contact in
  prop payload "from" = JStr (msg_from msg)
  /\ prop payload "is_group" = JBool (endsWith (msg_from msg) (js "@g.us"))
  /\ (prop payload "is_group" = JBool true
      <-> exists chat, msg_from msg = chat ++ js "@g.us")
  /\ (forall msg' contact',
        msg_from msg' = msg_from msg ->
        prop (buildMessagePayload msg' contact') "is_group" = prop payload "is_group").
Proof.
  intros payload.
  assert (Hg : forall m c, prop (buildMessagePayload m c) "is_group"
                           = JBool (endsWith (msg_from m) (js "@g.us"))).
  { intros m c. reflexivity. }
  split; [reflexivity|]. split; [apply Hg|]. split.
  - unfold payload. rewrite Hg, <- endsWith_suffix.
    split; [intros H; injection H; auto | intros ->; reflexivity].
  - intros msg' contact' Hfrom. unfold payload. rewrite !Hg, Hfrom. reflexivity.
Qed.

Lemma is_group_from_sender_witness :
  prop (buildMessagePayload sample_own_group_message (Rejected JNull)) "from_me" = JBool true
  /\ endsWith (msg_to sample_own_group_message) (js "@g.us") = true
  /\ prop (buildMessagePayload sample_own_group_message (Rejected JNull)) "is_group"
     = JBool false.
Proof.
  split; [reflexivity|]. split; [reflexivity|].
  exact (proj1 (proj2 (is_group_from_sender sample_own_group_message (Rejected JNull)))).
Defined.

(** ** Further properties: what a task does to sockets and subscribers *)

Lemma move_socket_length (ws : nat) (rs : N) (socks : list WebSocket) :
  length (move_socket ws rs socks) = length socks.
Proof.
  unfold move_socket. destruct (socks !! ws); [apply length_insert | reflexivity].
Qed.

Lemma move_socket_lookup (ws : nat) (rs : N) (socks : list WebSocket) (i : nat)
      (sock : WebSocket) :
  socks !! i = Some sock ->
  exists rs', move_socket ws rs socks !! i = Some {| readyState := rs'; sent := sent sock |}.
Proof.
  intros Hi. unfold move_socket. destruct (socks !! ws) as [sock'|] eqn:E.
  - destruct (decide (i = ws)) as [->|Hne].
    + rewrite list_lookup_insert_eq by (eapply lookup_lt_Some; eauto).
      exists rs. congruence.
    + rewrite list_lookup_insert_ne by congruence.
      exists (readyState sock). rewrite Hi. destruct sock; reflexivity.
  - exists (readyState sock). rewrite Hi. destruct sock; reflexivity.
Qed.

Lemma elem_of_Set_delete (x y : nat) (l : list nat) :
  x ∈ Set_delete y l <-> x ∈ l /\ x <> y.
Proof.
  unfold Set_delete. rewrite !list_elem_of_In, List.filter_In, negb_true_iff, Nat.eqb_neq.
  reflexivity.
Qed.

Lemma elem_of_Set_add (x y : nat) (l : list nat) :
  x ∈ Set_add y l <-> x ∈ l \/ x = y.
Proof.
  unfold Set_add. case_bool_decide as Hin.
  - split; [auto | intros [H| ->]; assumption].
  - rewrite elem_of_app, list_elem_of_singleton. reflexivity.
Qed.

(** Every task returns, and does to the sockets and to the subscriber
    set one of the seven things of [task_effect]. *)
Lemma step_effect (cfg : Config) (ev : Event) (st : Bridge) :
  exists st', step cfg ev st = Return tt st' /\ task_effect st st'.
Proof.
  destruct ev;
    try (eexists; split;
         [ cbv [step createClient on_qr_begin on_qr_resume on_authenticated
                  on_auth_failure on_ready on_disconnected on_message on_message_ack
                  on_change_state on_initialize_rejected on_ws_error
                  bind gets ret modify set_clientStatus set_currentQrDataUrl
                  set_waClient set_wsClients set_timers];
           rewrite ?broadcast_run; reflexivity
         | first [ apply effect_none; reflexivity
                 | eapply effect_broadcast; reflexivity
                 | eapply effect_error; reflexivity ] ]).
  - unfold step, on_message_create. destruct (msg_fromMe msg).
    + eexists. split; [apply broadcast_run|]. eapply effect_broadcast; reflexivity.
    + eexists. split; [reflexivity|]. apply effect_none; reflexivity.
  - unfold step, on_reconnect_timer. cbv [bind gets]. destruct (timers st).
    + eexists. split; [reflexivity|]. apply effect_none; reflexivity.
    + eexists. split; [reflexivity|]. apply effect_none; reflexivity.
  - destruct (token_ok cfg token) eqn:Hok.
    + eexists. split; [apply connection_accepted, Hok|]. apply effect_accept; reflexivity.
    + eexists. split; [apply connection_refused, Hok|]. apply effect_refuse; reflexivity.
  - unfold step, socket_moves. cbv [bind gets ret set_sockets modify].
    destruct (sockets st !! ws) as [sock|] eqn:E; rewrite ?E.
    + eexists. split; [reflexivity|]. apply (effect_move _ _ ws rs); [|reflexivity].
      unfold move_socket. simpl. rewrite E. reflexivity.
    + eexists. split; [reflexivity|]. apply (effect_move _ _ ws rs); [|reflexivity].
      unfold move_socket. rewrite E. reflexivity.
  - unfold step, socket_moves. cbv [bind gets ret set_sockets set_wsClients modify on_ws_close].
    destruct (sockets st !! ws) as [sock|] eqn:E; rewrite ?E.
    + eexists. split; [reflexivity|]. apply (effect_close _ _ ws); [|reflexivity].
      unfold move_socket. simpl. rewrite E. reflexivity.
    + eexists. split; [reflexivity|]. apply (effect_close _ _ ws); [|reflexivity].
      unfold move_socket. simpl. rewrite E. reflexivity.
Qed.

Lemma effect_length (st st' : Bridge) :
  task_effect st st' -> (length (sockets st) <= length (sockets st'))%nat.
Proof.
  intros [E _|p E _|E _|E _|ws rs E _|ws E _|ws E _]; rewrite E;
    rewrite ?deliver_all_length, ?length_app, ?move_socket_length; simpl; lia.
Qed.

Lemma effect_handles_valid (st st' : Bridge) :
  task_effect st st' -> handles_valid st -> handles_valid st'.
Proof.
  intros Heff Hv ws. pose proof (effect_length _ _ Heff) as Hlen.
  destruct Heff as [E Ec|p E Ec|E Ec|E Ec|w rs E Ec|w E Ec|w E Ec]; rewrite Ec.
  - intros H. specialize (Hv ws H). lia.
  - intros H. specialize (Hv ws H). lia.
  - rewrite elem_of_Set_add, E, length_app. simpl.
    intros [H| ->]; [specialize (Hv ws H)|]; lia.
  - intros H. specialize (Hv ws H). lia.
  - intros H. specialize (Hv ws H). lia.
  - rewrite elem_of_Set_delete. intros [H _]. specialize (Hv ws H). lia.
  - rewrite elem_of_Set_delete. intros [H _]. specialize (Hv ws H). lia.
Qed.

Lemma run_handles_valid (cfg : Config) (evs : list Event) (st st' : Bridge) :
  handles_valid st -> run cfg evs st = Return tt st' -> handles_valid st'.
Proof.
  revert st. induction evs as [|ev evs IH]; intros st Hv; simpl.
  - intros E. injection E as <-. exact Hv.
  - destruct (step_effect cfg ev st) as (st1 & E1 & Heff).
    rewrite (bind_run _ _ _ _ _ E1). apply IH. eapply effect_handles_valid; eauto.
Qed.

Lemma initial_handles_valid : handles_valid initial.
Proof. intros ws H. inversion H. Qed.

(** A socket that is not registered is written nothing by a task, and
    the task does not register it. *)
Lemma effect_unregistered (st st' : Bridge) (ws : nat) :
  task_effect st st' ->
  (ws < length (sockets st))%nat -> ws ∉ wsClients st ->
  frames st' ws = frames st ws /\ ws ∉ wsClients st'.
Proof.
  intros Heff Hlt Hnot. unfold frames.
  destruct (lookup_lt_is_Some_2 _ _ Hlt) as [sock Hs].
  destruct Heff as [E Ec|p E Ec|E Ec|E Ec|w rs E Ec|w E Ec|w E Ec]; rewrite E, Ec.
  - auto.
  - split; [|exact Hnot]. rewrite (deliver_all_lookup _ _ _ _ _ Hs), Hs.
    rewrite (occurrences_notin _ _ Hnot). simpl.
    destruct (readyState sock =? 1); simpl; rewrite app_nil_r; reflexivity.
  - split; [rewrite lookup_app_l by exact Hlt; reflexivity|].
    rewrite elem_of_Set_add. intros [H|H]; [auto | lia].
  - split; [rewrite lookup_app_l by exact Hlt; reflexivity | exact Hnot].
  - split; [|exact Hnot].
    destruct (move_socket_lookup w rs _ _ _ Hs) as [rs' ->]. rewrite Hs. reflexivity.
  - split; [|rewrite elem_of_Set_delete; tauto].
    destruct (move_socket_lookup w 3 _ _ _ Hs) as [rs' ->]. rewrite Hs. reflexivity.
  - split; [reflexivity | rewrite elem_of_Set_delete; tauto].
Qed.

Lemma run_unregistered (cfg : Config) (evs : list Event) (st : Bridge) (ws : nat) :
  (ws < length (sockets st))%nat -> ws ∉ wsClients st ->
  exists st', run cfg evs st = Return tt st'
              /\ frames st' ws = frames st ws /\ ws ∉ wsClients st'.
Proof.
  revert st. induction evs as [|ev evs IH]; intros st Hlt Hnot; simpl.
  - exists st. auto.
  - destruct (step_effect cfg ev st) as (st1 & E1 & Heff).
    destruct (effect_unregistered _ _ ws Heff Hlt Hnot) as [Hf Hn].
    pose proof (effect_length _ _ Heff) as Hlen.
    destruct (IH st1 ltac:(lia) Hn) as (st' & E' & Hf' & Hn').
    exists st'. rewrite (bind_run _ _ _ _ _ E1). split; [exact E'|].
    split; [congruence | exact Hn'].
Qed.

(** With a duplicate-free subscriber set, a task writes at most one
    frame to a socket. *)
Lemma effect_one_frame (st st' : Bridge) (ws : nat) (sock : WebSocket) :
  task_effect st st' -> NoDup (wsClients st) ->
  sockets st !! ws = Some sock ->
  exists rs more,
    sockets st' !! ws = Some {| readyState := rs; sent := sent sock ++ more |}
    /\ (length more <= 1)%nat.
Proof.
  intros Heff Hnd Hs.
  assert (Hsame : exists rs more,
             sockets st !! ws = Some {| readyState := rs; sent := sent sock ++ more |}
             /\ (length more <= 1)%nat).
  { exists (readyState sock), []. rewrite app_nil_r, Hs. split; [|simpl; lia].
    destruct sock; reflexivity. }
  assert (Hmove : forall w rs, exists rs' more,
             move_socket w rs (sockets st) !! ws
             = Some {| readyState := rs'; sent := sent sock ++ more |}
             /\ (length more <= 1)%nat).
  { intros w rs. destruct (move_socket_lookup w rs _ _ _ Hs) as [rs' E].
    exists rs', []. rewrite app_nil_r. split; [exact E | simpl; lia]. }
  destruct Heff as [E Ec|p E Ec|E Ec|E Ec|w rs E Ec|w E Ec|w E Ec]; rewrite E;
    try exact Hsame; try apply Hmove.
  - rewrite (deliver_all_lookup _ _ _ _ _ Hs). eexists _, _. split; [reflexivity|].
    rewrite length_replicate. destruct (readyState sock =? 1); [|lia].
    destruct (decide (ws ∈ wsClients st)) as [Hin|Hin].
    + rewrite (occurrences_NoDup _ _ Hnd Hin). lia.
    + rewrite (occurrences_notin _ _ Hin). lia.
  - rewrite lookup_app_l by (eapply lookup_lt_Some; eauto). exact Hsame.
  - rewrite lookup_app_l by (eapply lookup_lt_Some; eauto). exact Hsame.
Qed.

Lemma token_ok_false (cfg : Config) (token : option jsstring) :
  (forall t, token = Some t -> API_TOKEN cfg <> JStr t) -> token_ok cfg token = false.
Proof.
  intros H. destruct token as [t|]; [|reflexivity]. simpl.
  destruct (strict_eq_str t (API_TOKEN cfg)) eqn:E; [|reflexivity].
  apply strict_eq_str_iff in E. exfalso. exact (H t eq_refl E).
Qed.

(** The session part of the state after a task is the transition the
    event stands for; the timers either stay, gain one of 5000 ms at the
    end, or lose their first. *)
Lemma step_session (cfg : Config) (ev : Event) (st : Bridge) :
  exists st',
    step cfg ev st = Return tt st'
    /\ session_of st' = signal (session_of st) ev
    /\ (timers st' = timers st \/ timers st' = timers st ++ [5000]
        \/ exists d, timers st = d :: timers st').
Proof.
  destruct ev;
    try (eexists; split;
         [ cbv [step on_qr_begin on_qr_resume on_authenticated
                  on_auth_failure on_ready on_disconnected on_message on_message_ack
                  on_change_state on_initialize_rejected on_ws_error
                  bind gets ret modify set_clientStatus set_currentQrDataUrl
                  set_wsClients set_timers];
           rewrite ?broadcast_run; reflexivity
         | split; [ unfold session_of; simpl; rewrite ?length_app; simpl;
                    rewrite ?Nat.add_1_r; reflexivity
                  | simpl; auto ] ]).
  - eexists. split; [reflexivity|]. split; [|simpl; auto].
    unfold session_of. simpl. destruct (waClient st); reflexivity.
  - unfold step, on_message_create. destruct (msg_fromMe msg).
    + eexists. split; [apply broadcast_run|]. split; [reflexivity | simpl; auto].
    + eexists. split; [reflexivity|]. split; [reflexivity | auto].
  - unfold step, on_reconnect_timer. cbv [bind gets]. unfold session_of, signal. simpl.
    destruct (timers st) as [|d ts] eqn:Et.
    + eexists. split; [reflexivity|]. simpl. rewrite Et. auto.
    + eexists. split; [reflexivity|]. simpl. split; [|eauto].
      destruct (waClient st); reflexivity.
  - destruct (token_ok cfg token) eqn:Hok.
    + eexists. split; [apply connection_accepted, Hok|]. split; [reflexivity | simpl; auto].
    + eexists. split; [apply connection_refused, Hok|]. split; [reflexivity | simpl; auto].
  - unfold step, socket_moves. cbv [bind gets ret set_sockets modify].
    destruct (sockets st !! ws) as [sock|] eqn:E; rewrite ?E;
      (eexists; split; [reflexivity|]; split; [reflexivity | simpl; auto]).
  - unfold step, socket_moves. cbv [bind gets ret set_sockets set_wsClients modify on_ws_close].
    destruct (sockets st !! ws) as [sock|] eqn:E; rewrite ?E;
      (eexists; split; [reflexivity|]; split; [reflexivity | simpl; auto]).
Qed.

(** A run of tasks composes their transitions. *)
Lemma run_session (cfg : Config) (evs : list Event) (st : Bridge) :
  exists st',
    run cfg evs st = Return tt st' /\
    session_of st' = fold_left signal evs (session_of st).
Proof.
  revert st. induction evs as [|ev evs IH]; intros st.
  - exists st. split; reflexivity.
  - destruct (step_session cfg ev st) as (st1 & E1 & Hs & _).
    destruct (IH st1) as (st' & E' & Hs').
    exists st'. cbn [run fold_left]. rewrite (bind_run _ _ _ _ _ E1), <- Hs.
    split; assumption.
Qed.

(** ** Further properties of the event loop *)

(** X1. A connection that does not present the configured token is not
    registered, is handed no frame, and receives none whatever events
    follow. *)
Theorem refused_connection_stays_silent
        (cfg : Config) (history : list Event) (token : option jsstring)
        (evs : list Event) :
  (forall t, token = Some t -> API_TOKEN cfg <> JStr t) ->
  exists st st1 st2,
    run cfg history initial = Return tt st /\
    step cfg (WsConnection token) st = Return tt st1 /\
    wsClients st1 = wsClients st /\
    sockets st1 !! length (sockets st) = Some {| readyState := 2; sent := [] |} /\
    run cfg evs st1 = Return tt st2 /\
    frames st2 (length (sockets st)) = Some [] /\
    (length (sockets st)) ∉ wsClients st2.
Proof.
  intros Htok. apply token_ok_false in Htok.
  destruct (quiet_run cfg history initial) as ([] & st & Hrun & _).
  pose proof (run_handles_valid _ _ _ _ initial_handles_valid Hrun) as Hv.
  pose proof (connection_refused cfg token st Htok) as H1.
  match type of H1 with _ = Return tt ?s => set (st1 := s) in * end.
  assert (Hnot : (length (sockets st)) ∉ wsClients st1).
  { intros H. apply Hv in H. lia. }
  assert (Hlt : (length (sockets st) < length (sockets st1))%nat).
  { simpl. rewrite length_app. simpl. lia. }
  destruct (run_unregistered cfg evs st1 _ Hlt Hnot) as (st2 & H2 & Hf & Hn).
  exists st, st1, st2. repeat split; try assumption.
  - apply lookup_new_socket.
  - rewrite Hf. unfold frames. simpl. rewrite lookup_new_socket. reflexivity.
Qed.

Lemma refused_connection_stays_silent_witness :
  exists st st1 st2,
    run sample_cfg [ServerListening] initial = Return tt st /\
    step sample_cfg (WsConnection (Some (js "Bearer secret"))) st = Return tt st1 /\
    wsClients st1 = wsClients st /\
    sockets st1 !! length (sockets st) = Some {| readyState := 2; sent := [] |} /\
    run sample_cfg [ClientReady JNull; ClientMessageAck JNull (JNum 3)] st1 = Return tt st2 /\
    frames st2 (length (sockets st)) = Some [] /\
    (length (sockets st)) ∉ wsClients st2.
Proof.
  apply (refused_connection_stays_silent sample_cfg [ServerListening]
           (Some (js "Bearer secret"))
           [ClientReady JNull; ClientMessageAck JNull (JNum 3)]).
  intros t Ht. injection Ht as <-. discriminate.
Defined.

(** X2. Once the [close] or the [error] callback of a socket has run, the
    socket is out of the subscriber set and is written nothing more,
    whatever events follow. *)
Theorem closed_subscriber_gets_nothing_more
        (cfg : Config) (st : Bridge) (ws : nat) (by_close : bool) (evs : list Event) :
  (ws < length (sockets st))%nat ->
  exists st1 st2,
    step cfg (if by_close then WsClose ws else WsError ws) st = Return tt st1 /\
    frames st1 ws = frames st ws /\
    (ws ∉ wsClients st1) /\
    run cfg evs st1 = Return tt st2 /\
    frames st2 ws = frames st ws /\
    (ws ∉ wsClients st2).
Proof.
  intros Hlt.
  destruct (step_effect cfg (if by_close then WsClose ws else WsError ws) st)
    as (st1 & H1 & Heff).
  assert (H : frames st1 ws = frames st ws /\ (ws ∉ wsClients st1)
              /\ (ws < length (sockets st1))%nat).
  { revert H1. destruct by_close.
    - unfold step, socket_moves.
      cbv [bind gets ret set_sockets set_wsClients modify on_ws_close].
      destruct (lookup_lt_is_Some_2 _ _ Hlt) as [sock Hs]. rewrite Hs.
      intros E. injection E as <-. unfold frames. simpl.
      rewrite list_lookup_insert_eq by exact Hlt. rewrite Hs, length_insert. simpl.
      repeat split; [|exact Hlt]. rewrite elem_of_Set_delete. tauto.
    - unfold step, on_ws_error. cbv [bind gets set_wsClients modify].
      intros E. injection E as <-. unfold frames. simpl.
      repeat split; [|exact Hlt]. rewrite elem_of_Set_delete. tauto. }
  destruct H as (Hf1 & Hn1 & Hlt1).
  destruct (run_unregistered cfg evs st1 ws Hlt1 Hn1) as (st2 & H2 & Hf2 & Hn2).
  exists st1, st2. repeat split; try assumption. congruence.
Qed.

Lemma closed_subscriber_gets_nothing_more_witness :
  exists st1 st2,
    step sample_cfg (WsClose 0) mixed_sockets_state = Return tt st1 /\
    frames st1 0%nat = frames mixed_sockets_state 0%nat /\
    (0%nat ∉ wsClients st1) /\
    run sample_cfg [ClientDisconnected JNull; ReconnectTimerFired] st1 = Return tt st2 /\
    frames st2 0%nat = frames mixed_sockets_state 0%nat /\
    (0%nat ∉ wsClients st2).
Proof.
  apply (closed_subscriber_gets_nothing_more sample_cfg mixed_sockets_state 0 true
           [ClientDisconnected JNull; ReconnectTimerFired]).
  simpl. lia.
Defined.

(** X3. From a state whose subscriber set has no duplicates, a socket is
    written at most one frame per event: after any events its frames are
    the earlier ones followed by no more frames than events. *)
Theorem at_most_one_frame_per_event
        (cfg : Config) (evs : list Event) (st : Bridge) (ws : nat) (sock : WebSocket) :
  NoDup (wsClients st) ->
  sockets st !! ws = Some sock ->
  exists st' rs more,
    run cfg evs st = Return tt st' /\
    sockets st' !! ws = Some {| readyState := rs; sent := sent sock ++ more |} /\
    (length more <= length evs)%nat.
Proof.
  revert st sock. induction evs as [|ev evs IH]; intros st sock Hnd Hs; simpl.
  - exists st, (readyState sock), []. rewrite app_nil_r, Hs.
    repeat split; [destruct sock; reflexivity | simpl; lia].
  - destruct (step_effect cfg ev st) as (st1 & E1 & Heff).
    destruct (effect_one_frame _ _ _ _ Heff Hnd Hs) as (rs1 & m1 & Hs1 & Hl1).
    pose proof (step_NoDup _ _ _ _ Hnd E1) as Hnd1.
    destruct (IH st1 _ Hnd1 Hs1) as (st' & rs & more & E' & Hs' & Hl').
    exists st', rs, (m1 ++ more). rewrite (bind_run _ _ _ _ _ E1).
    split; [exact E'|]. simpl in Hs'. rewrite <- app_assoc in Hs'.
    split; [exact Hs'|]. rewrite length_app. lia.
Qed.

Lemma at_most_one_frame_per_event_witness :
  exists st' rs more,
    run sample_cfg [ClientReady JNull; ClientChangeState (JStr (js "CONNECTED"))]
        mixed_sockets_state = Return tt st' /\
    sockets st' !! 0%nat = Some {| readyState := rs; sent := [] ++ more |} /\
    (length more <= 2)%nat.
Proof.
  apply (at_most_one_frame_per_event sample_cfg
           [ClientReady JNull; ClientChangeState (JStr (js "CONNECTED"))]
           mixed_sockets_state 0 {| readyState := 1; sent := [] |}).
  - apply NoDup_cons_2; [|apply NoDup_singleton].
    intros H. apply list_elem_of_singleton in H. discriminate H.
  - reflexivity.
Defined.

(** X4. The status, the stored QR image, the number of pending reconnect
    timers and the number of clients constructed depend on the lifecycle
    signals alone: after any events they are what folding the transition
    of each event gives, and a run of connections, closes, errors,
    ready-state changes, messages, acks and state changes leaves all four
    as they were. *)
Theorem session_follows_signals (cfg : Config) (evs : list Event) (st : Bridge) :
  exists st',
    run cfg evs st = Return tt st' /\
    session_of st' = fold_left signal evs (session_of st) /\
    (forallb is_traffic evs = true -> session_of st' = session_of st).
Proof.
  revert st. induction evs as [|ev evs IH]; intros st; cbn [run fold_left forallb].
  - exists st. repeat split; reflexivity.
  - destruct (step_session cfg ev st) as (st1 & E1 & Hs & _).
    destruct (IH st1) as (st' & E' & Hs' & Hq).
    exists st'. rewrite (bind_run _ _ _ _ _ E1). split; [exact E'|].
    split; [rewrite Hs', Hs; reflexivity|].
    intros Ht. apply andb_true_iff in Ht as [Hev Ht].
    rewrite (Hq Ht), Hs. destruct ev; try discriminate Hev; reflexivity.
Qed.

Lemma session_follows_signals_witness :
  exists st',
    run sample_cfg [WsClose 0; ClientMessageAck JNull (JNum 3); WsConnection None]
        mixed_sockets_state = Return tt st' /\
    session_of st' = session_of mixed_sockets_state.
Proof.
  destruct (session_follows_signals sample_cfg
              [WsClose 0; ClientMessageAck JNull (JNum 3); WsConnection None]
              mixed_sockets_state) as (st' & H1 & _ & H2).
  exists st'. split; [exact H1|]. apply H2. reflexivity.
Defined.

(** X5. No reconnect is lost or doubled: after any events from the start,
    the clients constructed and the timers still pending together number
    the server starts and disconnect signals seen, and every pending
    timer is one of 5000 ms. *)
Theorem reconnects_are_conserved (cfg : Config) (evs : list Event) :
  exists st,
    run cfg evs initial = Return tt st /\
    (match waClient st with Some n => n | None => 0 end + length (timers st)
     = length (List.filter starts_or_drops evs))%nat /\
    Forall (fun delay => delay = 5000) (timers st).
Proof.
  assert (H : forall evs st,
             Forall (fun delay => delay = 5000) (timers st) ->
             exists st',
               run cfg evs st = Return tt st' /\
               (s_clients (session_of st') + s_pending (session_of st')
                = s_clients (session_of st) + s_pending (session_of st)
                  + length (List.filter starts_or_drops evs))%nat /\
               Forall (fun delay => delay = 5000) (timers st')).
  { clear evs. induction evs as [|ev evs IH]; intros st Ht; cbn [run List.filter].
    - exists st. repeat split; [simpl; lia | exact Ht].
    - destruct (step_session cfg ev st) as (st1 & E1 & Hs & Htm).
      assert (Ht1 : Forall (fun delay => delay = 5000) (timers st1)).
      { destruct Htm as [-> | [-> | [d Hd]]].
        - exact Ht.
        - apply Forall_app. split; [exact Ht | repeat constructor].
        - rewrite Hd in Ht. apply Forall_cons in Ht. tauto. }
      destruct (IH st1 Ht1) as (st' & E' & Hc & Ht').
      exists st'. rewrite (bind_run _ _ _ _ _ E1). split; [exact E'|].
      split; [|exact Ht']. rewrite Hc, Hs.
      destruct ev; cbn [signal starts_or_drops s_clients s_pending length]; try lia.
      destruct (s_pending (session_of st)) eqn:Ep; cbn [s_clients s_pending];
        rewrite ?Ep; lia. }
  destruct (H evs initial) as (st & E & Hc & Ht); [constructor|].
  exists st. split; [exact E|]. split; [|exact Ht]. simpl in Hc. exact Hc.
Qed.

(** ** Further properties of the gateway *)

Lemma dropWhile_app_keep (p : N -> bool) (l r : jsstring) (c : N) :
  p c = false -> dropWhile p (l ++ c :: r) = dropWhile p l ++ c :: r.
Proof.
  intros Hc. induction l as [|a l IH]; simpl.
  - rewrite Hc. reflexivity.
  - destruct (p a); [exact IH | reflexivity].
Qed.

Lemma trimStart_trimEnd (s : jsstring) :
  trimStart s = s -> trimStart (trimEnd s) = trimEnd s.
Proof.
  unfold trimStart, trimEnd. destruct s as [|c s]; [reflexivity|].
  simpl. destruct (is_space c) eqn:Ec.
  - intros H. exfalso.
    assert (Hlen : forall l, (length (dropWhile is_space l) <= length l)%nat).
    { induction l as [|a l IH]; simpl; [lia|]. destruct (is_space a); simpl; lia. }
    pose proof (Hlen s) as Hl. rewrite H in Hl. simpl in Hl. lia.
  - intros _. rewrite (dropWhile_app_keep is_space (rev s) [] c Ec).
    rewrite rev_app_distr. simpl. rewrite Ec. reflexivity.
Qed.

(** What [trim] returns has no white space left to trim. *)
Lemma trim_idem (s : jsstring) : trim (trim s) = trim s.
Proof.
  unfold trim.
  rewrite (trimStart_trimEnd (trimStart s)) by apply dropWhile_idem.
  unfold trimEnd. rewrite rev_involutive, dropWhile_idem. reflexivity.
Qed.

Lemma find_first {A} (f : A -> bool) (l : list A) (x : A) :
  List.find f l = Some x ->
  exists before after,
    l = before ++ x :: after /\ f x = true /\ Forall (fun y => f y = false) before.
Proof.
  induction l as [|a l IH]; simpl; [discriminate|].
  destruct (f a) eqn:Ea.
  - intros E. injection E as ->. exists [], l. repeat split; [exact Ea | constructor].
  - intros E. destruct (IH E) as (before & after & -> & Hx & Hb).
    exists (a :: before), after. repeat split; [exact Hx | constructor; assumption].
Qed.

Lemma auth_rejects (cfg : Config) (req : Request) :
  API_TOKEN cfg <> JStr (presented_token (default [] (authorization req))) ->
  auth cfg req = Some (error_response 401 (JStr (js "Unauthorized"))).
Proof.
  intros H. destruct (auth_cases cfg req) as [E|E]; [|exact E].
  apply auth_next_iff in E. congruence.
Qed.

Lemma session_fields (st : Bridge) (s : Session) :
  session_of st = s ->
  clientStatus st = s_status s /\ currentQrDataUrl st = s_qr s.
Proof. intros <-. split; reflexivity. Qed.



(** X7. Without the configured token the status, pairing-code, logout
    and chat-listing routes answer 401 whatever the state and the body,
    and make no call on the external client. *)
Theorem other_routes_require_token
        (info : value) (requestPairingCode : jsstring -> Result value)
        (logout : Result unit) (getChats : Result (list Chat))
        (cfg : Config) (st : Bridge) (req : Request) :
  API_TOKEN cfg <> JStr (presented_token (default [] (authorization req))) ->
  let unauthorized := error_response 401 (JStr (js "Unauthorized")) in
  get_api_status info cfg st req = unauthorized
  /\ post_api_pairing_code requestPairingCode cfg st req
     = {| answer := Responded unauthorized; gateway_calls := [] |}
  /\ post_api_logout logout cfg st req
     = {| answer := Responded unauthorized; gateway_calls := [] |}
  /\ get_api_chats getChats cfg st req
     = {| answer := Responded unauthorized; gateway_calls := [] |}.
Proof.
  intros H unauthorized. apply auth_rejects in H.
  unfold get_api_status, post_api_pairing_code, post_api_logout, get_api_chats, behind_auth.
  rewrite H. repeat split.
Qed.

Lemma other_routes_require_token_witness :
  get_api_status (JStr (js "me")) sample_cfg ready_state
    {| authorization := Some (js "Bearer wrong"); body := JUndefined |}
  = error_response 401 (JStr (js "Unauthorized")).
Proof.
  refine (proj1 (other_routes_require_token (JStr (js "me"))
                   (fun _ => Rejected JNull) (Rejected JNull) (Rejected JNull)
                   sample_cfg ready_state
                   {| authorization := Some (js "Bearer wrong"); body := JUndefined |} _)).
  discriminate.
Defined.



(** X9. Only the digits of the phone matter to the pairing-code route:
    with a client constructed, a non-empty phone string is forwarded as
    its digits, the answer is the code with 200 or the client's error
    message with 500, and two requests whose phone strings have the same
    digits are answered alike. *)
Theorem pairing_code_forwards_digits
        (requestPairingCode : jsstring -> Result value)
        (st : Bridge) (req req' : Request) (phone phone' : jsstring) :
  waClient st <> None ->
  prop (body req) "phone" = JStr phone -> phone <> [] ->
  prop (body req') "phone" = JStr phone' -> phone' <> [] ->
  List.filter is_digit phone = List.filter is_digit phone' ->
  api_pairing_code requestPairingCode st req
  = {| answer :=
         match requestPairingCode (List.filter is_digit phone) with
         | Resolved code =>
             Responded {| status_code := 200; content := Json (JObj [(js "code", code)]) |}
         | Rejected m => Responded (error_response 500 m)
         end;
       gateway_calls := [Call_requestPairingCode (List.filter is_digit phone)] |}
  /\ api_pairing_code requestPairingCode st req'
     = api_pairing_code requestPairingCode st req.
Proof.
  intros Hc Hp Hne Hp' Hne' Hd.
  assert (H : forall r p, prop (body r) "phone" = JStr p -> p <> [] ->
            api_pairing_code requestPairingCode st r
            = {| answer :=
                   match requestPairingCode (List.filter is_digit p) with
                   | Resolved code =>
                       Responded {| status_code := 200;
                                    content := Json (JObj [(js "code", code)]) |}
                   | Rejected m => Responded (error_response 500 m)
                   end;
                 gateway_calls := [Call_requestPairingCode (List.filter is_digit p)] |}).
  { intros r p Hr Hn. unfold api_pairing_code. cbv zeta.
    rewrite prop_body_or_empty, Hr, (truthy_nonempty p Hn).
    destruct (waClient st); [reflexivity | congruence]. }
  split; [apply H; assumption|].
  rewrite (H req phone Hp Hne), (H req' phone' Hp' Hne'), Hd. reflexivity.
Qed.

Lemma pairing_code_forwards_digits_witness :
  api_pairing_code (fun digits => Resolved (JStr (js "ABCD1234"))) ready_with_client
    (bearer "secret" (JObj [(js "phone", JStr (js "+1 (555) 123-4567"))]))
  = {| answer := Responded {| status_code := 200;
                              content := Json (JObj [(js "code", JStr (js "ABCD1234"))]) |};
       gateway_calls := [Call_requestPairingCode (js "15551234567")] |}.
Proof.
  refine (proj1 (pairing_code_forwards_digits
                   (fun digits => Resolved (JStr (js "ABCD1234"))) ready_with_client
                   (bearer "secret" (JObj [(js "phone", JStr (js "+1 (555) 123-4567"))]))
                   (bearer "secret" (JObj [(js "phone", JStr (js "15551234567"))]))
                   (js "+1 (555) 123-4567") (js "15551234567") _ _ _ _ _ _));
    first [reflexivity | discriminate].
Defined.

(** X10. The chat listing answers with the summaries of the first 50
    chats the client returns, in the client's order, and with nothing
    else: its length is the smaller of 50 and the number of chats. While
    the status is not READY it answers 503 without asking the client. *)
Theorem chats_lists_first_fifty (chats : list Chat) (st : Bridge) :
  (clientStatus st <> READY ->
   api_chats (Resolved chats) st
   = {| answer := Responded (error_response 503 (JStr (js "Not ready")));
        gateway_calls := [] |})
  /\ (clientStatus st = READY -> waClient st <> None ->
      exists items,
        api_chats (Resolved chats) st
        = {| answer := Responded {| status_code := 200; content := Json (JArr items) |};
             gateway_calls := [Call_getChats] |}
        /\ length items = Nat.min 50 (length chats)
        /\ forall i, (i < 50)%nat -> items !! i = chat_summary <$> chats !! i).
Proof.
  split.
  - intros H. unfold api_chats.
    destruct (is_READY (clientStatus st)) eqn:E; [apply is_READY_iff in E; congruence|].
    reflexivity.
  - intros Hs Hc. exists (map chat_summary (take 50 chats)).
    unfold api_chats. rewrite Hs. simpl negb. cbv iota.
    destruct (waClient st); [|congruence].
    split; [reflexivity|]. split.
    + rewrite length_map, length_take. reflexivity.
    + intros i Hi. rewrite list_lookup_fmap, lookup_take_lt by exact Hi. reflexivity.
Qed.

Lemma chats_lists_first_fifty_witness :
  api_chats (Resolved []) (with_clientStatus QR_READY initial)
  = {| answer := Responded (error_response 503 (JStr (js "Not ready")));
       gateway_calls := [] |}
  /\ exists items,
       api_chats (Resolved []) ready_with_client
       = {| answer := Responded {| status_code := 200; content := Json (JArr items) |};
            gateway_calls := [Call_getChats] |}
       /\ length items = Nat.min 50 (length (@nil Chat))
       /\ forall i, (i < 50)%nat -> items !! i = chat_summary <$> (@nil Chat) !! i.
Proof.
  split.
  - refine (proj1 (chats_lists_first_fifty [] (with_clientStatus QR_READY initial)) _).
    discriminate.
  - refine (proj2 (chats_lists_first_fifty [] ready_with_client) _ _);
      first [reflexivity | discriminate].
Defined.

(** X11. When the media fetch fails, the send operation answers 500 with
    the fetch error's message as it is, and nothing is sent: the only
    call made is the fetch. *)
Theorem failed_media_fetch_sends_nothing
        (fromUrl : value -> value -> Result value)
        (sendMessage : value -> value -> value -> Result SentMessage)
        (cfg : Config) (st : Bridge) (req : Request) (to : jsstring) (m : value) :
  clientStatus st = READY ->
  prop (body req) "to" = JStr to -> to <> [] ->
  truthy (prop (body req) "media_url") = true ->
  fromUrl (prop (body req) "media_url") (prop (body req) "media_filename") = Rejected m ->
  api_send fromUrl sendMessage cfg st req
  = {| reply := Responded {| status_code := 500;
                             content := Json (JObj [(js "error", m)]) |};
       client_calls := [Call_fromUrl (prop (body req) "media_url")
                                     (prop (body req) "media_filename")] |}.
Proof.
  intros Hs Hto Hne Hu Hf. unfold api_send. cbv zeta.
  rewrite Hs, !prop_body_or_empty, Hto, Hu, (truthy_nonempty to Hne), chatId_of_string, Hf.
  reflexivity.
Qed.

Lemma failed_media_fetch_sends_nothing_witness :
  api_send sample_fromUrl sample_sendMessage sample_cfg ready_state
    (bearer "secret" (JObj [(js "to", JStr (js "15551234567"));
                            (js "media_url", JStr (js "https://example.com/a.png"))]))
  = {| reply := Responded {| status_code := 500;
                             content := Json (JObj [(js "error",
                                                     JStr (js "fetch failed"))]) |};
       client_calls := [Call_fromUrl (JStr (js "https://example.com/a.png")) JUndefined] |}.
Proof.
  refine (failed_media_fetch_sends_nothing sample_fromUrl sample_sendMessage sample_cfg
            ready_state
            (bearer "secret" (JObj [(js "to", JStr (js "15551234567"));
                                    (js "media_url", JStr (js "https://example.com/a.png"))]))
            (js "15551234567") (JStr (js "fetch failed")) _ _ _ _ _);
    first [reflexivity | discriminate].
Defined.

(** X12. A media send needs no text: with a media reference that is
    fetched, the message validation is never reached; the media goes to
    the resolved chat identifier with the text as caption, or with no
    caption when the text is absent or empty, and the reply is whatever
    the client's send settles to. *)
Theorem media_send_needs_no_message
        (fromUrl : value -> value -> Result value)
        (sendMessage : value -> value -> value -> Result SentMessage)
        (cfg : Config) (st : Bridge) (req : Request) (to : jsstring) (media : value) :
  clientStatus st = READY ->
  prop (body req) "to" = JStr to -> to <> [] ->
  truthy (prop (body req) "media_url") = true ->
  fromUrl (prop (body req) "media_url") (prop (body req) "media_filename")
  = Resolved media ->
  let chatId := JStr (if bool_decide (64 ∈ to) then to
                      else List.filter is_digit to ++ js "@c.us") in
  let message := prop (body req) "message" in
  let options := JObj [(js "caption", if truthy message then message else JUndefined)] in
  api_send fromUrl sendMessage cfg st req
  = {| reply :=
         match sendMessage chatId media options with
         | Resolved sentMsg => Responded (sent_response sentMsg)
         | Rejected m => Responded (error_response 500 m)
         end;
       client_calls := [Call_fromUrl (prop (body req) "media_url")
                                     (prop (body req) "media_filename");
                        Call_sendMessage chatId media options] |}.
Proof.
  intros Hs Hto Hne Hu Hf chatId message options. unfold api_send. cbv zeta.
  rewrite Hs, !prop_body_or_empty, Hto, Hu, (truthy_nonempty to Hne), chatId_of_string, Hf.
  reflexivity.
Qed.

Lemma media_send_needs_no_message_witness :
  client_calls
    (api_send (fun _ _ => Resolved (JStr (js "png"))) sample_sendMessage sample_cfg
       ready_with_client
       (bearer "secret" (JObj [(js "to", JStr (js "123@g.us"));
                               (js "media_url", JStr (js "https://example.com/a.png"))])))
  = [Call_fromUrl (JStr (js "https://example.com/a.png")) JUndefined;
     Call_sendMessage (JStr (js "123@g.us")) (JStr (js "png"))
                      (JObj [(js "caption", JUndefined)])].
Proof.
  refine (f_equal client_calls
            (media_send_needs_no_message (fun _ _ => Resolved (JStr (js "png")))
               sample_sendMessage sample_cfg ready_with_client
               (bearer "secret" (JObj [(js "to", JStr (js "123@g.us"));
                                       (js "media_url",
                                        JStr (js "https://example.com/a.png"))]))
               (js "123@g.us") (JStr (js "png")) _ _ _ _ _));
    first [reflexivity | discriminate].
Defined.

(** X13. Resolving a string destination always gives an identifier that
    contains "@", and resolving that identifier again changes nothing; a
    destination of digits only resolves to itself followed by "@c.us",
    and one with neither a digit nor an "@" to the bare suffix "@c.us". *)
Theorem chat_id_is_stable (to : jsstring) :
  exists chatId,
    chatId_of (JStr to) = inr (JStr chatId)
    /\ 64 ∈ chatId
    /\ chatId_of (JStr chatId) = inr (JStr chatId)
    /\ (Forall (fun c => is_digit c = true) to -> chatId = to ++ js "@c.us")
    /\ (Forall (fun c => is_digit c = false /\ c <> 64) to -> chatId = js "@c.us").
Proof.
  eexists. split; [apply chatId_of_string|].
  assert (Hat : 64 ∈ js "@c.us") by (apply list_elem_of_here).
  assert (Hkeep : forall s : jsstring,
             Forall (fun c => is_digit c = true) s -> List.filter is_digit s = s).
  { induction 1 as [|c s Hc _ IH]; simpl; [reflexivity|]. rewrite Hc, IH. reflexivity. }
  assert (Hnone : forall s : jsstring,
             Forall (fun c => is_digit c = false /\ c <> 64) s ->
             List.filter is_digit s = [] /\ 64 ∉ s).
  { induction 1 as [|c s [Hc Hn] _ [IH1 IH2]]; simpl.
    - split; [reflexivity | intros H; inversion H].
    - rewrite Hc. split; [exact IH1|]. rewrite not_elem_of_cons. auto. }
  case_bool_decide as Hin.
  - split; [exact Hin|]. split.
    + rewrite chatId_of_string, bool_decide_eq_true_2 by exact Hin. reflexivity.
    + split.
      * intros Hd. exfalso. rewrite Forall_forall in Hd. specialize (Hd _ Hin).
        discriminate Hd.
      * intros Hd. exfalso. destruct (Hnone _ Hd) as [_ Hn]. exact (Hn Hin).
  - assert (H64 : 64 ∈ List.filter is_digit to ++ js "@c.us").
    { apply elem_of_app. right. exact Hat. }
    split; [exact H64|]. split.
    + rewrite chatId_of_string, bool_decide_eq_true_2 by exact H64. reflexivity.
    + split.
      * intros Hd. rewrite (Hkeep _ Hd). reflexivity.
      * intros Hd. destruct (Hnone _ Hd) as [-> _]. reflexivity.
Qed.

(** X14. With the status READY, a request whose destination is absent,
    null, empty, zero or false is answered 400 with "'to' is required",
    whatever else the body holds, and the external client is not
    called. *)
Theorem send_without_destination
        (fromUrl : value -> value -> Result value)
        (sendMessage : value -> value -> value -> Result SentMessage)
        (cfg : Config) (st : Bridge) (req : Request) :
  auth cfg req = None ->
  clientStatus st = READY ->
  truthy (prop (body req) "to") = false ->
  post_api_send fromUrl sendMessage cfg st req
  = {| reply := Responded {| status_code := 400;
                             content := Json (JObj [(js "error",
                                                     JStr (js "'to' is required"))]) |};
       client_calls := [] |}.
Proof.
  intros Ha Hs Hto. unfold post_api_send, api_send. cbv zeta.
  rewrite Ha, Hs, !prop_body_or_empty, Hto. reflexivity.
Qed.

Lemma send_without_destination_witness :
  post_api_send sample_fromUrl sample_sendMessage sample_cfg ready_state
    (bearer "secret" (JObj [(js "to", JStr []); (js "message", JStr (js "hello"))]))
  = {| reply := Responded {| status_code := 400;
                             content := Json (JObj [(js "error",
                                                     JStr (js "'to' is required"))]) |};
       client_calls := [] |}.
Proof.
  refine (send_without_destination sample_fromUrl sample_sendMessage sample_cfg
            ready_state
            (bearer "secret" (JObj [(js "to", JStr []); (js "message", JStr (js "hello"))]))
            _ _ _);
    reflexivity.
Defined.

(** X15. The display name of a message payload is never empty when the
    sender identifier is not: it is the contact's push name, else its
    name, else its number, whichever is the first that is not empty, and
    the sender identifier when all three are empty or the contact lookup
    fails. *)
Theorem contact_name_never_empty (msg : Message) (contact : Result Contact) :
  msg_from msg <> [] ->
  let shown := prop (buildMessagePayload msg contact) "contact_name" in
  truthy shown = true
  /\ match contact with
     | Rejected _ => shown = JStr (msg_from msg)
     | Resolved c =>
         shown = (if truthy (pushname c) then pushname c
                  else if truthy (name c) then name c
                  else if truthy (number c) then number c
                  else JStr (msg_from msg))
     end.
Proof.
  intros Hne shown.
  assert (Hshown : shown = match contact with
                           | Resolved c =>
                               js_or (js_or (js_or (pushname c) (name c)) (number c))
                                     (JStr (msg_from msg))
                           | Rejected _ => JStr (msg_from msg)
                           end).
  { unfold shown, buildMessagePayload. cbv zeta.
    generalize (match contact with
                | Resolved c =>
                    js_or (js_or (js_or (pushname c) (name c)) (number c))
                          (JStr (msg_from msg))
                | Rejected _ => JStr (msg_from msg)
                end).
    intros v. destruct v; reflexivity. }
  rewrite Hshown. pose proof (truthy_nonempty _ Hne) as Hfrom.
  destruct contact as [c|m]; [|split; [exact Hfrom | reflexivity]].
  unfold js_or.
  destruct (truthy (pushname c)) eqn:E1; rewrite ?E1;
    [split; [first [assumption | reflexivity] | reflexivity]|].
  destruct (truthy (name c)) eqn:E2; rewrite ?E2;
    [split; [first [assumption | reflexivity] | reflexivity]|].
  destruct (truthy (number c)) eqn:E3; rewrite ?E3;
    split; first [assumption | reflexivity].
Qed.

Lemma contact_name_never_empty_witness :
  prop (buildMessagePayload sample_own_group_message
          (Resolved {| pushname := JStr []; name := JUndefined;
                       number := JStr (js "15551234567") |}))
       "contact_name"
  = JStr (js "15551234567").
Proof.
  refine (proj2 (contact_name_never_empty sample_own_group_message
                   (Resolved {| pushname := JStr []; name := JUndefined;
                                number := JStr (js "15551234567") |}) _)).
  discriminate.
Defined.

Lemma chat_id_is_stable_witness :
  exists chatId,
    chatId_of (JStr (js "15551234567")) = inr (JStr chatId)
    /\ chatId = js "15551234567@c.us".
Proof.
  destruct (chat_id_is_stable (js "15551234567")) as (chatId & H & _ & _ & Hd & _).
  exists chatId. split; [exact H|]. apply Hd.
  repeat constructor.
Defined.

(** X16. When no token is configured (unset or empty), the token is the
    built-in default: a request presenting "change_me_to_a_random_secret"
    passes [auth], and a connection with that token is registered. *)
Theorem unset_token_uses_default (cfg : Config) (st : Bridge) (b : value) :
  truthy (api_token cfg) = false ->
  API_TOKEN cfg = JStr (js "change_me_to_a_random_secret")
  /\ auth cfg (bearer "change_me_to_a_random_secret" b) = None
  /\ exists st',
       step cfg (WsConnection (Some (js "change_me_to_a_random_secret"))) st
       = Return tt st'
       /\ (length (sockets st)) ∈ wsClients st'.
Proof.
  intros Hu.
  assert (Htok : API_TOKEN cfg = JStr (js "change_me_to_a_random_secret")).
  { unfold API_TOKEN, js_or. rewrite Hu. reflexivity. }
  split; [exact Htok|]. split.
  - apply auth_next_iff. rewrite Htok. reflexivity.
  - eexists. split.
    + apply connection_accepted. simpl. apply strict_eq_str_iff. exact Htok.
    + simpl. apply Set_add_elem.
Qed.

Lemma unset_token_uses_default_witness :
  auth {| edition := Standalone; api_token := JUndefined |}
       (bearer "change_me_to_a_random_secret" JUndefined)
  = None.
Proof.
  refine (proj1 (proj2 (unset_token_uses_default
                          {| edition := Standalone; api_token := JUndefined |}
                          initial JUndefined _))).
  reflexivity.
Defined.

(** X17. The two token checks differ on white space: what [auth]
    compares is always trimmed, so a configured token with white space at
    either end is matched by no Authorization header at all, while a
    connection presenting that very token is registered. *)
Theorem padded_token_rest_and_socket_differ
        (cfg : Config) (st : Bridge) (req : Request) (token : jsstring) :
  API_TOKEN cfg = JStr token ->
  trim token <> token ->
  auth cfg req = Some (error_response 401 (JStr (js "Unauthorized")))
  /\ exists st',
       step cfg (WsConnection (Some token)) st = Return tt st'
       /\ (length (sockets st)) ∈ wsClients st'.
Proof.
  intros Htok Hpad. split.
  - apply auth_rejects. rewrite Htok. intros E. injection E as E.
    apply Hpad. rewrite E. apply trim_idem.
  - eexists. split.
    + apply connection_accepted. simpl. apply strict_eq_str_iff. exact Htok.
    + simpl. apply Set_add_elem.
Qed.

Lemma padded_token_rest_and_socket_differ_witness :
  auth {| edition := Addon; api_token := JStr (js "secret ") |}
       (bearer "secret " JUndefined)
  = Some (error_response 401 (JStr (js "Unauthorized"))).
Proof.
  refine (proj1 (padded_token_rest_and_socket_differ
                   {| edition := Addon; api_token := JStr (js "secret ") |}
                   initial (bearer "secret " JUndefined) (js "secret ") _ _));
    first [reflexivity | discriminate].
Defined.

(** X18. [findChromium] never returns a path that does not exist: its
    result is either the environment's path or a candidate, and exists;
    the environment's path wins whenever it is set and exists; otherwise
    the result is the first candidate that exists, every candidate before
    it being absent; and the result is undefined only when neither the
    environment's path nor any candidate exists. *)
Theorem findChromium_result_exists
        (env_path : option jsstring) (existsSync : jsstring -> bool) :
  match findChromium env_path existsSync with
  | Some path =>
      existsSync path = true
      /\ (env_path = Some path
          \/ exists before after,
               chromium_candidates = before ++ path :: after
               /\ Forall (fun p => existsSync p = false) before
               /\ forall p, env_path = Some p -> p = [] \/ existsSync p = false)
  | None =>
      Forall (fun p => existsSync p = false) chromium_candidates
      /\ forall p, env_path = Some p -> p = [] \/ existsSync p = false
  end.
Proof.
  unfold findChromium.
  destruct env_path as [p|].
  - destruct (truthy (JStr p) && existsSync p) eqn:E.
    + apply andb_true_iff in E as [_ E]. auto.
    + assert (Henv : forall q, Some p = Some q -> q = [] \/ existsSync q = false).
      { intros q Hq. injection Hq as <-.
        apply andb_false_iff in E as [E|E]; [left | right; exact E].
        destruct p; [reflexivity | discriminate E]. }
      destruct (List.find existsSync chromium_candidates) as [path|] eqn:F.
      * destruct (find_first _ _ _ F) as (before & after & Hl & Hx & Hb).
        split; [exact Hx|]. right. exists before, after. auto.
      * split; [|exact Henv]. apply Forall_forall. intros q Hq.
        apply (List.find_none _ _ F). apply list_elem_of_In. exact Hq.
  - assert (Henv : forall q, @None jsstring = Some q -> q = [] \/ existsSync q = false)
      by discriminate.
    destruct (List.find existsSync chromium_candidates) as [path|] eqn:F.
    + destruct (find_first _ _ _ F) as (before & after & Hl & Hx & Hb).
      split; [exact Hx|]. right. exists before, after. auto.
    + split; [|exact Henv]. apply Forall_forall. intros q Hq.
      apply (List.find_none _ _ F). apply list_elem_of_In. exact Hq.
Qed.

(** X19. After any events from the start, the status query reports the
    status that the lifecycle signals imply, and while that status is not
    READY it reports no session info, whatever the client holds. *)
Theorem status_query_follows_signals
        (info : value) (cfg : Config) (evs : list Event) (req : Request) :
  auth cfg req = None ->
  exists st answered,
    run cfg evs initial = Return tt st /\
    get_api_status info cfg st req = {| status_code := 200; content := Json answered |} /\
    prop answered "status"
    = JStr (status_name (s_status (fold_left signal evs (session_of initial)))) /\
    (s_status (fold_left signal evs (session_of initial)) <> READY ->
     prop answered "info" = JNull).
Proof.
  intros Ha.
  destruct (run_session cfg evs initial) as (st & Hrun & Hs).
  apply session_fields in Hs as [Hst _].
  eexists st, _. split; [exact Hrun|].
  unfold get_api_status, api_status. rewrite Ha, Hst. split; [reflexivity|].
  split.
  - reflexivity.
  - intros Hnr.
    destruct (is_READY _) eqn:E; [apply is_READY_iff in E; congruence|].
    reflexivity.
Qed.

Lemma status_query_follows_signals_witness :
  exists st answered,
    run sample_cfg [ServerListening; ClientReady (JStr (js "me")); ClientDisconnected JNull]
        initial = Return tt st /\
    get_api_status (JStr (js "me")) sample_cfg st (bearer "secret" JUndefined)
    = {| status_code := 200; content := Json answered |} /\
    prop answered "status" = JStr (js "DISCONNECTED") /\
    prop answered "info" = JNull.
Proof.
  destruct (status_query_follows_signals (JStr (js "me")) sample_cfg
              [ServerListening; ClientReady (JStr (js "me")); ClientDisconnected JNull]
              (bearer "secret" JUndefined) eq_refl)
    as (st & answered & H1 & H2 & H3 & H4).
  exists st, answered. repeat split; try assumption.
  apply H4. discriminate.
Defined.

(** ** Every subscriber sees the same stream *)

Lemma move_socket_lookup_ne (w : nat) (rs : N) (socks : list WebSocket) (i : nat) :
  i <> w -> move_socket w rs socks !! i = socks !! i.
Proof.
  intros Hne. unfold move_socket. destruct (socks !! w); [|reflexivity].
  apply list_lookup_insert_ne. congruence.
Qed.

(** One task writes the same frames to every registered OPEN socket it
    is not about, and leaves each of them registered and OPEN. *)
Lemma step_uniform (cfg : Config) (ev : Event) (st : Bridge) :
  NoDup (wsClients st) ->
  exists st',
    step cfg ev st = Return tt st' /\
    forall ws sock,
      touches ws ev = false -> ws ∈ wsClients st ->
      sockets st !! ws = Some sock -> readyState sock = 1 ->
      sockets st' !! ws
      = Some {| readyState := 1; sent := sent sock ++ published ev |}
      /\ ws ∈ wsClients st'.
Proof.
  intros Hnd.
  assert (Hkeep : forall ws sock, sockets st !! ws = Some sock -> readyState sock = 1 ->
                    sockets st !! ws = Some {| readyState := 1; sent := sent sock ++ [] |}).
  { intros ws sock Hs Ho. rewrite Hs, app_nil_r, <- Ho. destruct sock; reflexivity. }
  assert (Hcast : forall p ws sock, ws ∈ wsClients st ->
                    sockets st !! ws = Some sock -> readyState sock = 1 ->
                    deliver_all (JSON_stringify p) (wsClients st) (sockets st) !! ws
                    = Some {| readyState := 1; sent := sent sock ++ [JSON_stringify p] |}).
  { intros p ws sock Hin Hs Ho. rewrite (deliver_all_lookup _ _ _ _ _ Hs), Ho.
    rewrite (occurrences_NoDup _ _ Hnd Hin). reflexivity. }
  destruct ev;
    try (eexists; split;
         [ cbv [step createClient on_qr_begin on_qr_resume on_authenticated
                  on_auth_failure on_ready on_disconnected on_message on_message_ack
                  on_change_state on_initialize_rejected
                  bind gets ret modify set_clientStatus set_currentQrDataUrl
                  set_waClient set_wsClients set_timers];
           rewrite ?broadcast_run; reflexivity
         | intros ws sock _ Hin Hs Ho; simpl; split; [|exact Hin];
           first [ apply Hcast; assumption | apply Hkeep; assumption ] ]).
  - unfold step, on_message_create, published. destruct (msg_fromMe msg).
    + eexists. split; [apply broadcast_run|].
      intros ws sock _ Hin Hs Ho. simpl. split; [apply Hcast; assumption | exact Hin].
    + eexists. split; [reflexivity|].
      intros ws sock _ Hin Hs Ho. split; [apply Hkeep; assumption | exact Hin].
  - unfold step, on_reconnect_timer. cbv [bind gets]. destruct (timers st).
    + eexists. split; [reflexivity|].
      intros ws sock _ Hin Hs Ho. split; [apply Hkeep; assumption | exact Hin].
    + eexists. split; [reflexivity|].
      intros ws sock _ Hin Hs Ho. split; [apply Hkeep; assumption | exact Hin].
  - destruct (token_ok cfg token) eqn:Hok.
    + eexists. split; [apply connection_accepted, Hok|].
      intros ws sock _ Hin Hs Ho. simpl. split.
      * rewrite lookup_app_l by (eapply lookup_lt_Some; eauto). apply Hkeep; assumption.
      * apply elem_of_Set_add. left. exact Hin.
    + eexists. split; [apply connection_refused, Hok|].
      intros ws sock _ Hin Hs Ho. simpl. split; [|exact Hin].
      rewrite lookup_app_l by (eapply lookup_lt_Some; eauto). apply Hkeep; assumption.
  - destruct (step_effect cfg (WsReadyState ws rs) st) as (st' & E & _).
    exists st'. split; [exact E|].
    intros i sock Ht Hin Hs Ho. simpl in Ht. apply Nat.eqb_neq in Ht.
    revert E. unfold step, socket_moves. cbv [bind gets ret set_sockets modify].
    destruct (sockets st !! ws) as [sockw|] eqn:Ew; rewrite ?Ew;
      intros E; injection E as <-; simpl.
    + rewrite list_lookup_insert_ne by congruence. split; [apply Hkeep; assumption | exact Hin].
    + split; [apply Hkeep; assumption | exact Hin].
  - destruct (step_effect cfg (WsClose ws) st) as (st' & E & _).
    exists st'. split; [exact E|].
    intros i sock Ht Hin Hs Ho. simpl in Ht. apply Nat.eqb_neq in Ht.
    revert E. unfold step, socket_moves.
    cbv [bind gets ret set_sockets set_wsClients modify on_ws_close].
    destruct (sockets st !! ws) as [sockw|] eqn:Ew; rewrite ?Ew;
      intros E; injection E as <-; simpl.
    + rewrite list_lookup_insert_ne by congruence.
      split; [apply Hkeep; assumption | apply elem_of_Set_delete; split; congruence].
    + split; [apply Hkeep; assumption | apply elem_of_Set_delete; split; congruence].
  - eexists. split; [reflexivity|].
    intros i sock Ht Hin Hs Ho. simpl in Ht. apply Nat.eqb_neq in Ht. simpl.
    split; [apply Hkeep; assumption | apply elem_of_Set_delete; split; congruence].
Qed.

(** X20. Fan-out is uniform and complete: a subscriber that is registered
    and OPEN at the start of a run of events, none of which is its own
    close, error or change of ready state, has received at the end
    exactly the frames those events publish, in the order of the events,
    after what it had; and it is still registered and OPEN. *)
Theorem subscribers_receive_the_published_stream
        (cfg : Config) (evs : list Event) (st : Bridge) :
  NoDup (wsClients st) ->
  exists st',
    run cfg evs st = Return tt st' /\
    forall ws sock,
      Forall (fun ev => touches ws ev = false) evs ->
      ws ∈ wsClients st ->
      sockets st !! ws = Some sock -> readyState sock = 1 ->
      sockets st' !! ws
      = Some {| readyState := 1; sent := sent sock ++ concat (map published evs) |}
      /\ ws ∈ wsClients st'.
Proof.
  revert st. induction evs as [|ev evs IH]; intros st Hnd; cbn [run map concat].
  - exists st. split; [reflexivity|].
    intros ws sock _ Hin Hs Ho. split; [|exact Hin].
    rewrite Hs, app_nil_r, <- Ho. destruct sock; reflexivity.
  - destruct (step_uniform cfg ev st Hnd) as (st1 & E1 & H1).
    pose proof (step_NoDup _ _ _ _ Hnd E1) as Hnd1.
    destruct (IH st1 Hnd1) as (st' & E' & H2).
    exists st'. rewrite (bind_run _ _ _ _ _ E1). split; [exact E'|].
    intros ws sock Hall Hin Hs Ho. apply Forall_cons in Hall as [Hev Hall].
    destruct (H1 ws sock Hev Hin Hs Ho) as [Hs1 Hin1].
    destruct (H2 ws _ Hall Hin1 Hs1 eq_refl) as [Hs2 Hin2].
    simpl in Hs2. rewrite <- app_assoc in Hs2. auto.
Qed.

Lemma subscribers_receive_the_published_stream_witness :
  exists st',
    run sample_cfg [ClientReady JNull; WsClose 1; ClientChangeState (JStr (js "CONNECTED"))]
        mixed_sockets_state = Return tt st' /\
    sockets st' !! 0%nat
    = Some {| readyState := 1;
              sent := [JSON_stringify {| event := js "ready";
                                         data := JObj [(js "info", JNull)] |};
                       JSON_stringify {| event := js "state_change";
                                         data := JObj [(js "state",
                                                        JStr (js "CONNECTED"))] |}] |}.
Proof.
  assert (Hnd : NoDup (wsClients mixed_sockets_state)).
  { apply NoDup_cons_2; [|apply NoDup_singleton].
    intros H. apply list_elem_of_singleton in H. discriminate H. }
  destruct (subscribers_receive_the_published_stream sample_cfg
              [ClientReady JNull; WsClose 1; ClientChangeState (JStr (js "CONNECTED"))]
              mixed_sockets_state Hnd) as (st' & Hrun & H).
  exists st'. split; [exact Hrun|].
  refine (proj1 (H 0%nat {| readyState := 1; sent := [] |} _ _ eq_refl eq_refl)).
  - repeat constructor.
  - apply list_elem_of_here.
Defined.

Lemma Set_delete_idem (x : nat) (l : list nat) :
  Set_delete x (Set_delete x l) = Set_delete x l.
Proof.
  unfold Set_delete. induction l as [|y l IH]; simpl; [reflexivity|].
  destruct (negb (Nat.eqb y x)) eqn:E; simpl; [rewrite E|]; rewrite IH; reflexivity.
Qed.

Lemma move_socket_idem (ws : nat) (rs : N) (socks : list WebSocket) :
  move_socket ws rs (move_socket ws rs socks) = move_socket ws rs socks.
Proof.
  unfold move_socket at 2. destruct (socks !! ws) as [sock|] eqn:E.
  - unfold move_socket.
    rewrite list_lookup_insert_eq by (eapply lookup_lt_Some; eauto). rewrite E. simpl.
    apply list_insert_insert_eq.
  - unfold move_socket. rewrite E. reflexivity.
Qed.

(** X21. Unregistering is idempotent: once the [close] callback of a
    socket has run, running it again or running the [error] callback
    changes nothing; once the [error] callback has run, running it again
    changes nothing; and either callback on a socket that is not
    registered leaves the subscriber set as it was. *)
Theorem unregistering_is_idempotent (cfg : Config) (st : Bridge) (ws : nat) :
  exists closed errored,
    step cfg (WsClose ws) st = Return tt closed /\
    step cfg (WsClose ws) closed = Return tt closed /\
    step cfg (WsError ws) closed = Return tt closed /\
    step cfg (WsError ws) st = Return tt errored /\
    step cfg (WsError ws) errored = Return tt errored /\
    (ws ∉ wsClients st -> wsClients closed = wsClients st /\ errored = st).
Proof.
  assert (Hclose : forall s, step cfg (WsClose ws) s
            = Return tt (with_wsClients (Set_delete ws (wsClients s))
                           (with_sockets (move_socket ws 3 (sockets s)) s))).
  { intros s. unfold step, socket_moves, move_socket.
    cbv [bind gets ret set_sockets set_wsClients modify on_ws_close].
    destruct (sockets s !! ws) as [sock|] eqn:E; rewrite ?E; [reflexivity|].
    rewrite with_sockets_same. reflexivity. }
  assert (Herror : forall s, step cfg (WsError ws) s
            = Return tt (with_wsClients (Set_delete ws (wsClients s)) s)).
  { intros s. reflexivity. }
  assert (Hnot : forall l, ws ∉ l -> Set_delete ws l = l).
  { intros l. unfold Set_delete. induction l as [|y l IH]; intros H; simpl; [reflexivity|].
    apply not_elem_of_cons in H as [Hne Hl].
    destruct (Nat.eqb_spec y ws); [congruence|]. simpl. rewrite IH by exact Hl. reflexivity. }
  eexists _, _. split; [apply Hclose|]. split; [|split; [|split; [apply Herror|split]]].
  - rewrite Hclose. simpl. rewrite Set_delete_idem, move_socket_idem. reflexivity.
  - rewrite Herror. simpl. rewrite Set_delete_idem. reflexivity.
  - rewrite Herror. simpl. rewrite Set_delete_idem. reflexivity.
  - intros H. simpl. split; [apply Hnot, H|].
    rewrite (Hnot _ H). destruct st; reflexivity.
Qed.

Lemma unregistering_is_idempotent_witness :
  exists closed errored,
    step sample_cfg (WsClose 2) mixed_sockets_state = Return tt closed /\
    step sample_cfg (WsError 2) mixed_sockets_state = Return tt errored /\
    wsClients closed = wsClients mixed_sockets_state /\ errored = mixed_sockets_state.
Proof.
  destruct (unregistering_is_idempotent sample_cfg mixed_sockets_state 2)
    as (closed & errored & H1 & _ & _ & H2 & _ & H3).
  exists closed, errored. split; [exact H1|]. split; [exact H2|].
  apply H3. intros H. apply elem_of_cons in H as [H|H]; [discriminate H|].
  apply list_elem_of_singleton in H. discriminate H.
Defined.

(** X22. Call discipline of the send operation, for every body and
    state: a reply of 503 or 400, and a handler left without a reply,
    made no call at all; the client's [sendMessage] is called at most
    once and always last, after at most one media fetch; and the only
    response codes are 200, 400, 500 and 503. *)
Theorem send_call_discipline
        (fromUrl : value -> value -> Result value)
        (sendMessage : value -> value -> value -> Result SentMessage)
        (cfg : Config) (st : Bridge) (req : Request) :
  let served := api_send fromUrl sendMessage cfg st req in
  match reply served with
  | Unhandled _ => client_calls served = []
  | Responded r =>
      ((status_code r = 503 \/ status_code r = 400) /\ client_calls served = [])
      \/ (status_code r = 500 /\
          exists url filename, client_calls served = [Call_fromUrl url filename])
      \/ ((status_code r = 200 \/ status_code r = 500) /\
          exists chatId content options,
            client_calls served = [Call_sendMessage chatId content options]
            \/ exists url filename,
                 client_calls served = [Call_fromUrl url filename;
                                        Call_sendMessage chatId content options])
  end.
Proof.
  unfold api_send. cbv zeta.
  destruct (is_READY (clientStatus st)); simpl; [|left; auto].
  destruct (truthy (prop (js_or (body req) (JObj [])) "to")); simpl; [|left; auto].
  destruct (chatId_of (prop (js_or (body req) (JObj [])) "to")) as [e|chatId];
    simpl; [reflexivity|].
  destruct (truthy (prop (js_or (body req) (JObj [])) "media_url")); simpl.
  - destruct (fromUrl _ _) as [media|m]; simpl.
    + destruct (sendMessage _ _ _); simpl; right; right; (split; [auto|]); eauto 8.
    + right. left. eauto.
  - destruct (truthy (prop (js_or (body req) (JObj [])) "message")); simpl; [|left; auto].
    destruct (sendMessage _ _ _); simpl; right; right; (split; [auto|]); eauto 8.
Qed.
